(** * The development-time front-end proxy of the Deno/Oak server

    A shallow embedding of [frontendMiddleware] (the HTTP forwarder and
    the WebSocket tunnel), of the middleware chain built by [server]
    ([loggerMiddleware], [errorMiddleware], the prefix dispatcher) and of
    [errorBody]/[successBody], followed by the properties of the proxy.

    Conventions.
    - A JavaScript string is a [string]; header values are byte strings.
    - A middleware is a computation in the monad [M]: it threads the
      mutable part of the Oak context (the response, [ctx.respond]) and
      the trace of calls made to the runtime, and it completes normally
      or by throwing.
    - What the runtime answers (the result of [fetch], of the
      [WebSocket] constructor, of [ctx.upgrade()], of awaiting the
      request body) is an input of the model. *)

From Stdlib Require Import String Ascii List ZArith Bool Arith Lia.
Import ListNotations.
Open Scope string_scope.

(** ** JavaScript strings *)

(** [String.prototype.toLowerCase] on one code unit below 256: the
    letters A-Z and the Latin-1 capitals (0xC0-0xDE but the
    multiplication sign 0xD7) move up by 32. *)
Definition lower_unit (c : ascii) : ascii :=
  let n := nat_of_ascii c in
  if ((65 <=? n) && (n <=? 90))%nat then ascii_of_nat (n + 32)
  else if ((192 <=? n) && (n <=? 222) && negb (n =? 215))%nat
       then ascii_of_nat (n + 32)
       else c.

Fixpoint toLowerCase (s : string) : string :=
  match s with
  | EmptyString => EmptyString
  | String c r => String (lower_unit c) (toLowerCase r)
  end.

(** [s.startsWith(p)] *)
Definition startsWith (s p : string) : bool := String.prefix p s.

(** ** Headers *)

(** A [Headers] object: the list of name/value pairs in insertion
    order. Names compare without regard to case. *)
Definition Headers := list (string * string).

Definition same_name (a b : string) : bool :=
  String.eqb (toLowerCase a) (toLowerCase b).

(** [h.get(name)]: [null] when no pair carries the name, otherwise the
    values of all pairs that do, joined by a comma and a space. *)
Definition headers_get (name : string) (h : Headers) : option string :=
  match filter (fun kv => same_name (fst kv) name) h with
  | [] => None
  | kvs => Some (String.concat ", " (map snd kvs))
  end.

(** [new Headers(h)]: a fresh object holding the same pairs. *)
Definition headers_copy (h : Headers) : Headers := h.

(** ** utils/bodyFormat.ts *)

(** The envelope both helpers build. [data] is [None] for [null]. *)
Record Envelope (T : Type) : Type := mkEnvelope {
  code : Z;
  data : option T;
  status : string;
  message : string
}.
Arguments mkEnvelope {T} _ _ _ _.
Arguments code {T} _.
Arguments data {T} _.
Arguments status {T} _.
Arguments message {T} _.

Definition successBody {T : Type} (d : T) : Envelope T :=
  {| code := 200; data := Some d; status := "success"; message := "成功" |}.

Definition errorBody (msg : string) : Envelope Empty_set :=
  {| code := 500; data := None; status := "error"; message := msg |}.

(** ** Values that cross the runtime boundary *)

(** What a [throw] carries: an Oak [HttpError] (it is an [Error] and
    [isHttpError] holds of it), any other [Error], or a value that is
    not an [Error]. *)
Inductive JsError : Type :=
| HttpError (st : Z) (msg : string)
| PlainError (msg : string)
| NonError (shown : string).

Definition instanceofError (e : JsError) : bool :=
  match e with NonError _ => false | _ => true end.

Definition error_message (e : JsError) : string :=
  match e with
  | HttpError _ m => m
  | PlainError m => m
  | NonError s => s
  end.

(** The two ends of a tunnel: [ws], the socket of the client, and
    [wsClient], the socket opened to the dev server. *)
Inductive Side : Type := Downstream | Upstream.

Definition other (s : Side) : Side :=
  match s with Downstream => Upstream | Upstream => Downstream end.

(** The handler slots the proxy assigns. *)
Inductive Slot : Type := onmessage | onclose | onerror.

(** A body stream: the chunks in the order the producer enqueues them. *)
Definition Chunk := list Byte.byte.
Definition Stream := list Chunk.

(** A [Response] of [fetch]; [res_body] is [None] for a [null] body. *)
Record FetchResponse : Type := mkFetchResponse {
  res_status : Z;
  res_headers : Headers;
  res_body : option Stream
}.

(** What [ctx.response.body] may hold. *)
Inductive ResponseBody : Type :=
| BodyUnset
| BodyText (s : string)
| BodyJson (e : Envelope Empty_set)
| BodyStream (s : Stream)
| BodySocket.

(** The mutable response of the context; [out_status] is [None] until a
    status is assigned. *)
Record Response : Type := mkResponse {
  out_status : option Z;
  out_headers : Headers;
  out_body : ResponseBody
}.

(** The settings the proxy reads from [env]. *)
Record Env : Type := mkEnv {
  WEB_URL : string;
  PREFIX : string
}.

(** ** Completions and the middleware monad *)

(** How an evaluation ends: with a value, or by throwing. The same type
    gives the answer of a runtime call. *)
Inductive Completion (A : Type) : Type :=
| Normal (a : A)
| Throw (e : JsError).
Arguments Normal {A} _.
Arguments Throw {A} _.

Section Proxy.

(** The type of what awaiting [ctx.request.body().value] yields; the
    proxy only hands it on. *)
Variable B : Type.

(** The second argument of [fetch]; [init_body] is [None] for
    [undefined]. *)
Record RequestInit : Type := mkRequestInit {
  init_method : string;
  init_headers : Headers;
  init_body : option B
}.

(** The request side of the context. [body_value] is the completion of
    [await ctx.request.body().value]. *)
Record Request : Type := mkRequest {
  method : string;
  pathname : string;
  search : string;
  headers : Headers;
  hasBody : bool;
  body_value : Completion B
}.

(** The read-only part of an Oak context: the request, [isUpgradable],
    and the completion of [ctx.upgrade()]. *)
Record Context : Type := mkContext {
  request : Request;
  isUpgradable : bool;
  upgrade_result : Completion unit
}.

(** The runtime: [fetch], the [WebSocket] constructor (which may throw)
    and the default message Oak gives an [HttpError] of a status. *)
Record Runtime : Type := mkRuntime {
  fetch : string -> RequestInit -> Completion FetchResponse;
  new_WebSocket : string -> Completion unit;
  STATUS_TEXT : Z -> string
}.

(** The log sink is reached through [logger] and [console]; an entry is
    recorded by the place that writes it. *)
Inductive LogEntry : Type :=
| RequestStart (m p : string)
| RequestDone (m p : string) (st : option Z)
| RequestError (m p : string) (msg : string)
| ServerError (msg : string)
| ProxyError (e : JsError).

(** A call that leaves the middleware. *)
Inductive Effect : Type :=
| EAwaitBody
| EFetch (url : string) (init : RequestInit)
| EUpgrade
| ENewWebSocket (url : string)
| ESetHandler (s : Side) (slot : Slot)
| ELog (l : LogEntry).

(** The state a middleware threads: the response, [ctx.respond] and the
    calls made so far, oldest first. *)
Record St : Type := mkSt {
  response : Response;
  respond : bool;
  trace : list Effect
}.

Definition M (A : Type) : Type := St -> Completion A * St.

Definition ret {A : Type} (a : A) : M A := fun s => (Normal a, s).

Definition bind {A C : Type} (m : M A) (k : A -> M C) : M C :=
  fun s => match m s with
           | (Normal a, s') => k a s'
           | (Throw e, s') => (Throw e, s')
           end.

Definition throw {A : Type} (e : JsError) : M A := fun s => (Throw e, s).

(** [try { m } catch (e) { h e }] *)
Definition try_catch {A : Type} (m : M A) (h : JsError -> M A) : M A :=
  fun s => match m s with
           | (Normal a, s') => (Normal a, s')
           | (Throw e, s') => h e s'
           end.

Definition emit (e : Effect) : M unit :=
  fun s => (Normal tt, {| response := response s; respond := respond s;
                          trace := trace s ++ [e] |}).

(** A runtime call: recorded, then completed as the runtime answers. *)
Definition call {A : Type} (e : Effect) (r : Completion A) : M A :=
  fun s => (r, {| response := response s; respond := respond s;
                  trace := trace s ++ [e] |}).

Definition update_response (f : Response -> Response) : M unit :=
  fun s => (Normal tt, {| response := f (response s); respond := respond s;
                          trace := trace s |}).

Definition set_status (z : Z) : M unit :=
  update_response (fun r => {| out_status := Some z;
                               out_headers := out_headers r;
                               out_body := out_body r |}).

Definition set_headers (h : Headers) : M unit :=
  update_response (fun r => {| out_status := out_status r;
                               out_headers := h;
                               out_body := out_body r |}).

Definition set_body (b : ResponseBody) : M unit :=
  update_response (fun r => {| out_status := out_status r;
                               out_headers := out_headers r;
                               out_body := b |}).

Definition set_respond (b : bool) : M unit :=
  fun s => (Normal tt, {| response := response s; respond := b;
                          trace := trace s |}).

Definition get_status : M (option Z) :=
  fun s => (Normal (out_status (response s)), s).

Notation "x <- m ;; k" := (bind m (fun x => k))
  (at level 61, m at next level, right associativity).
Notation "m ;;; k" := (bind m (fun _ => k))
  (at level 61, right associativity).

(** The context a request starts with: nothing assigned, [respond]
    true, nothing called. *)
Definition fresh : St :=
  {| response := {| out_status := None; out_headers := []; out_body := BodyUnset |};
     respond := true;
     trace := [] |}.

(** ** middleware/frontend.ts *)

(** [ctx.request.headers.get("upgrade")?.toLowerCase() === "websocket"] *)
Definition is_websocket_upgrade (h : Headers) : bool :=
  match headers_get "upgrade" h with
  | Some u => String.eqb (toLowerCase u) "websocket"
  | None => false
  end.

(** [ctx.throw(st)]: throws the [HttpError] of the status with its
    default message; nothing after it runs. *)
Definition ctx_throw {A : Type} (rt : Runtime) (st : Z) : M A :=
  throw (HttpError st (STATUS_TEXT rt st)).

(** The six handler assignments, in the order of the source. *)
Definition install_handlers : M unit :=
  emit (ESetHandler Upstream onmessage) ;;;
  emit (ESetHandler Upstream onclose) ;;;
  emit (ESetHandler Upstream onerror) ;;;
  emit (ESetHandler Downstream onmessage) ;;;
  emit (ESetHandler Downstream onclose) ;;;
  emit (ESetHandler Downstream onerror).

(** The WebSocket branch: the upgrade check and [ctx.upgrade()] stand
    before the [try]; the [catch] only assigns the status. *)
Definition tunnel (rt : Runtime) (env : Env) (ctx : Context) : M unit :=
  let path := pathname (request ctx) in
  let searchParams := search (request ctx) in
  (if negb (isUpgradable ctx) then ctx_throw rt 501 else ret tt) ;;;
  call EUpgrade (upgrade_result ctx) ;;;
  try_catch
    (let wsUrl := "ws://" ++ WEB_URL env ++ path ++ searchParams in
     call (ENewWebSocket wsUrl) (new_WebSocket rt wsUrl) ;;;
     install_handlers ;;;
     set_body BodySocket)
    (fun _error => set_status 500).

(** The HTTP branch, all of it inside one [try]. *)
Definition forward (rt : Runtime) (env : Env) (ctx : Context) : M unit :=
  let req := request ctx in
  let path := pathname req in
  let searchParams := search req in
  try_catch
    (requestBody <-
       (if hasBody req
        then v <- call EAwaitBody (body_value req) ;; ret (Some v)
        else ret None) ;;
     let url := "http://" ++ WEB_URL env ++ path ++ searchParams in
     let init := {| init_method := method req;
                    init_headers := headers req;
                    init_body := requestBody |} in
     res <- call (EFetch url init) (fetch rt url init) ;;
     set_headers (headers_copy (res_headers res)) ;;;
     set_status (res_status res) ;;;
     match res_body res with
     | Some b => set_body (BodyStream b)
     | None => ret tt
     end)
    (fun error =>
       emit (ELog (ProxyError error)) ;;;
       set_status 502 ;;;
       set_body (BodyText "Bad Gateway")).

Definition frontendMiddleware (rt : Runtime) (env : Env) (ctx : Context) : M unit :=
  if is_websocket_upgrade (headers (request ctx))
  then tunnel rt env ctx
  else forward rt env ctx.

(** ** utils/request.ts *)

Definition loggerMiddleware (ctx : Context) (next : M unit) : M unit :=
  let m := method (request ctx) in
  let p := pathname (request ctx) in
  emit (ELog (RequestStart m p)) ;;;
  try_catch
    (next ;;;
     st <- get_status ;;
     emit (ELog (RequestDone m p st)))
    (fun error =>
       emit (ELog (RequestError m p (error_message error))) ;;;
       throw error).

Definition errorMiddleware (next : M unit) : M unit :=
  try_catch next
    (fun err =>
       emit (ELog (ServerError (error_message err))) ;;;
       let status := match err with
                     | HttpError st _ => st      (* isHttpError(err) *)
                     | _ => 500%Z                (* Status.InternalServerError *)
                     end in
       set_status status ;;;
       set_body (BodyJson (errorBody (if instanceofError err
                                      then error_message err
                                      else "服务器内部错误"))) ;;;
       set_respond true).

(** The third middleware of [server]: requests under the API prefix go
    on to the router, all others to the proxy. *)
Definition dispatch (rt : Runtime) (env : Env) (ctx : Context) (next : M unit) : M unit :=
  if startsWith (pathname (request ctx)) (PREFIX env)
  then next
  else frontendMiddleware rt env ctx.

(** The chain [server] installs, [router] standing for the routes and
    the allowed-methods middleware behind the dispatcher. *)
Definition server (rt : Runtime) (env : Env) (router : M unit) (ctx : Context) : M unit :=
  loggerMiddleware ctx (errorMiddleware (dispatch rt env ctx router)).

(** What the proxy asks of the dev server for a request: the two
    addresses, the value line 108 evaluates to, and the [fetch] options
    built from it. *)
Definition http_url (env : Env) (req : Request) : string :=
  "http://" ++ WEB_URL env ++ pathname req ++ search req.

Definition ws_url (env : Env) (req : Request) : string :=
  "ws://" ++ WEB_URL env ++ pathname req ++ search req.

Definition awaited_body (req : Request) : Completion (option B) :=
  if hasBody req
  then match body_value req with
       | Normal v => Normal (Some v)
       | Throw e => Throw e
       end
  else Normal None.

Definition init_of (req : Request) (b : option B) : RequestInit :=
  {| init_method := method req; init_headers := headers req; init_body := b |}.

(** The calls of a trace that reach the dev server. *)
Definition fetch_calls (t : list Effect) : list (string * RequestInit) :=
  flat_map (fun e => match e with EFetch u i => [(u, i)] | _ => [] end) t.

Definition socket_calls (t : list Effect) : list string :=
  flat_map (fun e => match e with ENewWebSocket u => [u] | _ => [] end) t.

End Proxy.

Arguments mkRequestInit {B}.
Arguments init_method {B}.
Arguments init_headers {B}.
Arguments init_body {B}.
Arguments mkRequest {B}.
Arguments method {B}.
Arguments pathname {B}.
Arguments search {B}.
Arguments headers {B}.
Arguments hasBody {B}.
Arguments body_value {B}.
Arguments mkContext {B}.
Arguments request {B}.
Arguments isUpgradable {B}.
Arguments upgrade_result {B}.
Arguments mkRuntime {B}.
Arguments fetch {B}.
Arguments new_WebSocket {B}.
Arguments STATUS_TEXT {B}.
Arguments EAwaitBody {B}.
Arguments EFetch {B}.
Arguments EUpgrade {B}.
Arguments ENewWebSocket {B}.
Arguments ESetHandler {B}.
Arguments ELog {B}.
Arguments mkSt {B}.
Arguments response {B}.
Arguments respond {B}.
Arguments trace {B}.
Arguments ret {B A}.
Arguments bind {B A C}.
Arguments throw {B A}.
Arguments try_catch {B A}.
Arguments emit {B}.
Arguments call {B A}.
Arguments update_response {B}.
Arguments set_status {B}.
Arguments set_headers {B}.
Arguments set_body {B}.
Arguments set_respond {B}.
Arguments get_status {B}.
Arguments fresh {B}.
Arguments ctx_throw {B A}.
Arguments install_handlers {B}.
Arguments tunnel {B}.
Arguments forward {B}.
Arguments frontendMiddleware {B}.
Arguments loggerMiddleware {B}.
Arguments errorMiddleware {B}.
Arguments dispatch {B}.
Arguments server {B}.
Arguments http_url {B}.
Arguments ws_url {B}.
Arguments awaited_body {B}.
Arguments init_of {B}.
Arguments fetch_calls {B}.
Arguments socket_calls {B}.

Notation "x <- m ;; k" := (bind m (fun x => k))
  (at level 61, m at next level, right associativity).
Notation "m ;;; k" := (bind m (fun _ => k))
  (at level 61, right associativity).

(** ** The request [fetch] sends

    The options handed to [fetch] are not yet the request on the wire:
    the runtime takes the Host header of the request from the URL, of
    which it names the host and the port, and an entry of
    [init.headers] under the name [host] is not sent. [request_host]
    is that header, for a URL whose authority the URL parser leaves as
    it is written; such are the addresses of [plain_address]. *)

Definition is_delimiter (c : ascii) : bool :=
  Ascii.eqb c "/" || Ascii.eqb c "?" || Ascii.eqb c "#".

(** What follows the first two slashes of a URL. *)
Fixpoint after_slashes (url : string) : string :=
  match url with
  | EmptyString => EmptyString
  | String c rest =>
      match rest with
      | EmptyString => EmptyString
      | String c' rest' =>
          if Ascii.eqb c "/" && Ascii.eqb c' "/" then rest' else after_slashes rest
      end
  end.

Fixpoint until_delimiter (s : string) : string :=
  match s with
  | EmptyString => EmptyString
  | String c rest =>
      if is_delimiter c then EmptyString else String c (until_delimiter rest)
  end.

Definition request_host (url : string) : string :=
  until_delimiter (after_slashes url).

Definition is_lower (c : ascii) : bool :=
  let n := nat_of_ascii c in ((97 <=? n) && (n <=? 122))%nat.

Definition is_digit (c : ascii) : bool :=
  let n := nat_of_ascii c in ((48 <=? n) && (n <=? 57))%nat.

Definition host_unit (c : ascii) : bool :=
  is_lower c || Ascii.eqb c "-" || Ascii.eqb c ".".

Fixpoint all_units (p : ascii -> bool) (s : string) : bool :=
  match s with
  | EmptyString => true
  | String c rest => p c && all_units p rest
  end.

(** A port the URL parser keeps as written: digits without a leading
    zero, and not 80, which an [http] URL leaves out. *)
Definition plain_port (s : string) : bool :=
  match s with
  | EmptyString => false
  | String c _ =>
      negb (Ascii.eqb c "0") && all_units is_digit s && negb (String.eqb s "80")
  end.

Fixpoint host_then_port (s : string) : bool :=
  match s with
  | EmptyString => true
  | String c rest =>
      if Ascii.eqb c ":" then plain_port rest else host_unit c && host_then_port rest
  end.

(** A host name of lower-case letters, hyphens and dots, alone or
    followed by a colon and a port. *)
Definition plain_address (a : string) : bool :=
  match a with
  | EmptyString => false
  | String c _ => host_unit c && host_then_port a
  end.

(** ** The tunnel once both sockets exist

    The six handlers of [frontendMiddleware] run against the two
    sockets. A socket follows the WebSocket interface of the runtime:
    [send] transmits on an open socket, throws an [InvalidStateError]
    on a socket that is still connecting, and drops the data on one
    that is closing or closed; [close] starts the closing handshake of
    a socket that is connecting or open and does nothing on one that is
    closing or closed; a close event is dispatched on a socket once,
    with the socket already closed; a failing connection is closed,
    then gets an error event, then its close event.

    None of the handlers has a [try]: an exception of a call ends the
    handler and leaves it uncaught. The session records the exception
    and the sockets stay as they are, as under a runtime that reports
    such an exception and goes on; under one that ends the process on
    it the session ends there, and what is said of a run holds of it up
    to that point. *)

Module Relay.

Definition Data := string.

Inductive ReadyState : Type := CONNECTING | OPEN | CLOSING | CLOSED.

(** What a handler calls on a socket. *)
Inductive Call : Type :=
| Send (target : Side) (d : Data)
| Close (target : Side).

Inductive Event : Type :=
| MessageEvent (d : Data)
| CloseEvent
| ErrorEvent.

(** The handlers as assigned: those of [wsClient] first, then those of
    [ws]. *)
Definition handler (s : Side) (e : Event) : list Call :=
  match s, e with
  | Upstream, MessageEvent d => [Send Downstream d]
  | Upstream, CloseEvent => [Close Downstream]
  | Upstream, ErrorEvent => [Close Downstream]
  | Downstream, MessageEvent d => [Send Upstream d]
  | Downstream, CloseEvent => [Close Upstream]
  | Downstream, ErrorEvent => [Close Downstream]
  end.

(** What [send] throws on a socket that is still connecting. *)
Inductive DOMException : Type :=
| InvalidStateError (target : Side) (d : Data).

(** A session: the ready state of each socket, the messages transmitted
    towards each side (oldest first), the sends that transmitted
    nothing, the sides whose closing handshake [close] has started, and
    the exceptions that left a handler uncaught. *)
Record Session : Type := mkSession {
  down : ReadyState;
  up : ReadyState;
  to_down : list Data;
  to_up : list Data;
  refused : list (Side * Data);
  closing : list Side;
  uncaught : list DOMException
}.

Definition ready (s : Side) (r : Session) : ReadyState :=
  match s with Downstream => down r | Upstream => up r end.

Definition wire (s : Side) (r : Session) : list Data :=
  match s with Downstream => to_down r | Upstream => to_up r end.

Definition set_ready (s : Side) (q : ReadyState) (r : Session) : Session :=
  match s with
  | Downstream => {| down := q; up := up r; to_down := to_down r;
                     to_up := to_up r; refused := refused r; closing := closing r;
                     uncaught := uncaught r |}
  | Upstream => {| down := down r; up := q; to_down := to_down r;
                   to_up := to_up r; refused := refused r; closing := closing r;
                   uncaught := uncaught r |}
  end.

Definition transmit (s : Side) (d : Data) (r : Session) : Session :=
  match s with
  | Downstream => {| down := down r; up := up r; to_down := to_down r ++ [d];
                     to_up := to_up r; refused := refused r; closing := closing r;
                     uncaught := uncaught r |}
  | Upstream => {| down := down r; up := up r; to_down := to_down r;
                   to_up := to_up r ++ [d]; refused := refused r; closing := closing r;
                   uncaught := uncaught r |}
  end.

Definition refuse (s : Side) (d : Data) (r : Session) : Session :=
  {| down := down r; up := up r; to_down := to_down r; to_up := to_up r;
     refused := refused r ++ [(s, d)]; closing := closing r;
     uncaught := uncaught r |}.

Definition start_closing (s : Side) (r : Session) : Session :=
  let r' := set_ready s CLOSING r in
  {| down := down r'; up := up r'; to_down := to_down r'; to_up := to_up r';
     refused := refused r'; closing := closing r' ++ [s];
     uncaught := uncaught r' |}.

Definition report (x : DOMException) (r : Session) : Session :=
  {| down := down r; up := up r; to_down := to_down r; to_up := to_up r;
     refused := refused r; closing := closing r;
     uncaught := uncaught r ++ [x] |}.

(** How a call of a handler ends: it returns, or it throws. *)
Inductive Outcome : Type :=
| Returned (r : Session)
| Thrown (x : DOMException) (r : Session).

(** [socket.send(d)] *)
Definition ws_send (s : Side) (d : Data) (r : Session) : Outcome :=
  match ready s r with
  | CONNECTING => Thrown (InvalidStateError s d) (refuse s d r)
  | OPEN => Returned (transmit s d r)
  | CLOSING | CLOSED => Returned (refuse s d r)
  end.

(** [socket.close()] *)
Definition ws_close (s : Side) (r : Session) : Session :=
  match ready s r with
  | CONNECTING | OPEN => start_closing s r
  | CLOSING | CLOSED => r
  end.

Definition perform (r : Session) (c : Call) : Outcome :=
  match c with
  | Send t d => ws_send t d r
  | Close t => Returned (ws_close t r)
  end.

(** The body of a handler: its calls in order, up to the first that
    throws. *)
Fixpoint run_handler (calls : list Call) (r : Session) : Session :=
  match calls with
  | [] => r
  | c :: rest =>
      match perform r c with
      | Returned r' => run_handler rest r'
      | Thrown x r' => report x r'
      end
  end.

(** Dispatching an event on a socket runs the handler assigned to it. *)
Definition dispatch_event (s : Side) (e : Event) (r : Session) : Session :=
  run_handler (handler s e) r.

(** What the network does to a session: a connection is established, a
    message arrives, a connection ends, a connection fails. *)
Inductive Input : Type :=
| Opened (s : Side)
| Arrived (s : Side) (d : Data)
| Finished (s : Side)
| Failed (s : Side).

Definition is_closed (q : ReadyState) : bool :=
  match q with CLOSED => true | _ => false end.

Definition is_open (q : ReadyState) : bool :=
  match q with OPEN => true | _ => false end.

(** An input the runtime can produce in a state: a socket opens once,
    hears messages until it is closed but not before it is open, and
    ends once. *)
Definition enabled (i : Input) (r : Session) : bool :=
  match i with
  | Opened s => match ready s r with CONNECTING => true | _ => false end
  | Arrived s _ => match ready s r with OPEN | CLOSING => true | _ => false end
  | Finished s => negb (is_closed (ready s r))
  | Failed s => negb (is_closed (ready s r))
  end.

Definition deliver (r : Session) (i : Input) : Session :=
  if enabled i r then
    match i with
    | Opened s => set_ready s OPEN r
    | Arrived s d => dispatch_event s (MessageEvent d) r
    | Finished s => dispatch_event s CloseEvent (set_ready s CLOSED r)
    | Failed s =>
        dispatch_event s CloseEvent
          (dispatch_event s ErrorEvent (set_ready s CLOSED r))
    end
  else r.

Definition run (inputs : list Input) (r : Session) : Session :=
  fold_left deliver inputs r.

(** The session as the middleware leaves it: both sockets connecting,
    nothing transmitted. *)
Definition established : Session :=
  {| down := CONNECTING; up := CONNECTING; to_down := []; to_up := [];
     refused := []; closing := []; uncaught := [] |}.

(** A socket whose closing handshake is under way. *)
Definition pending_close (r : Session) : option Side :=
  match down r, up r with
  | CLOSING, _ => Some Downstream
  | _, CLOSING => Some Upstream
  | _, _ => None
  end.

(** The runtime completes the closing handshakes under way, at most [n]
    of them. *)
Fixpoint settle (n : nat) (r : Session) : Session :=
  match n with
  | O => r
  | S k => match pending_close r with
           | Some s => settle k (deliver r (Finished s))
           | None => r
           end
  end.

Definition side_eqb (a b : Side) : bool :=
  match a, b with
  | Downstream, Downstream | Upstream, Upstream => true
  | _, _ => false
  end.

(** The messages heard on side [s] during a run, in arrival order. *)
Fixpoint received (s : Side) (inputs : list Input) (r : Session) : list Data :=
  match inputs with
  | [] => []
  | i :: rest =>
      match i with
      | Arrived s' d => if side_eqb s' s && enabled i r then [d] else []
      | _ => []
      end ++ received s rest (deliver r i)
  end.

(** Those of them heard while the other side was open. *)
Fixpoint relayed (s : Side) (inputs : list Input) (r : Session) : list Data :=
  match inputs with
  | [] => []
  | i :: rest =>
      match i with
      | Arrived s' d =>
          if side_eqb s' s && enabled i r && is_open (ready (other s) r)
          then [d] else []
      | _ => []
      end ++ relayed s rest (deliver r i)
  end.

End Relay.

(** ** A state-and-exception monad for the utilities

    The utilities ([utils/mysql.ts], [utils/logger.ts], [utils/cron.ts],
    the route handlers) each thread a state of their own; [Run S] is the
    monad of the middleware over any state [S], with [finally]. *)

Definition Run (S A : Type) : Type := S -> Completion A * S.

Definition pure {S A : Type} (a : A) : Run S A := fun s => (Normal a, s).

Definition and_then {S A C : Type} (m : Run S A) (k : A -> Run S C) : Run S C :=
  fun s => match m s with
           | (Normal a, s') => k a s'
           | (Throw e, s') => (Throw e, s')
           end.

Definition raise {S A : Type} (e : JsError) : Run S A := fun s => (Throw e, s).

(** [try { m } catch (e) { h e }] *)
Definition attempt {S A : Type} (m : Run S A) (h : JsError -> Run S A) : Run S A :=
  fun s => match m s with
           | (Normal a, s') => (Normal a, s')
           | (Throw e, s') => h e s'
           end.

(** [try { m } finally { f }]: [f] runs in both cases; when [f] throws,
    its exception replaces the completion of [m]. *)
Definition finally {S A : Type} (m : Run S A) (f : Run S unit) : Run S A :=
  fun s => match m s with
           | (c, s') => match f s' with
                        | (Normal _, s'') => (c, s'')
                        | (Throw e, s'') => (Throw e, s'')
                        end
           end.

Notation "'let!' x ':=' m 'in' k" := (and_then m (fun x => k))
  (at level 10, x name, m at level 100, k at level 200).
Notation "m ';>' k" := (and_then m (fun _ => k))
  (at level 61, right associativity).

(** ** utils/mysql.ts *)

Module Mysql.

Section WithValues.

(** [V] is the type of the values of a record ([any] in the source),
    [Row] the type of a row the driver returns. *)
Context {V Row : Type}.

(** A [QueryParams] object: its entries in the order of
    [Object.entries]. *)
Definition QueryParams : Type := list (string * V).

Definition keys (o : QueryParams) : list string := map fst o.

Definition values (o : QueryParams) : list V := map snd o.

(** [data[col]], [None] for [undefined]. *)
Fixpoint get (o : QueryParams) (col : string) : option V :=
  match o with
  | [] => None
  | (k, v) :: rest => if String.eqb k col then Some v else get rest col
  end.

(** [cols.includes(col)] *)
Definition includes (cols : list string) (col : string) : bool :=
  existsb (String.eqb col) cols.

(** An element of a parameter array: a value of a record as the
    record stores it, a number ([limit], [offset]), or the [undefined]
    that reading a property gives which the object does not have. [V]
    stands for [any], so a stored value may be [undefined] as well. *)
Inductive Param : Type :=
| PValue (v : V)
| PNumber (n : Z)
| PUndefined.

(** Whether a parameter is [undefined], [undefined_value] telling it of
    a stored value. *)
Definition is_undefined (undefined_value : V -> bool) (p : Param) : bool :=
  match p with
  | PValue v => undefined_value v
  | PNumber _ => false
  | PUndefined => true
  end.

(** What the driver reports for a statement. *)
Record ExecResult : Type := mkExecResult {
  affectedRows : Z;
  insertId : option Z
}.

(** The entries the class writes to the logger, by place. *)
Inductive DbLog : Type :=
| Connecting
| Connected
| ConnectFailed (msg : string)
| Closed
| CloseFailed
| QueryDebug (sql : string)
| QueryOk (sql : string) (rowCount : nat)
| QueryFailed (sql : string)
| ExecuteDebug (sql : string)
| ExecuteOk (sql : string)
| ExecuteFailed (sql : string)
| FindAllDebug (sql : string)
| TransactionBegin
| TransactionOk
| TransactionFailed (msg : string)
| BatchDebug (sql : string) (count : nat)
| BatchOk (table : string)
| BatchFailed (table : string).

(** A call that leaves the class; [p] names the pool it is made on. *)
Inductive Call : Type :=
| CreatePool
| PoolQuery (p : nat) (sql : string) (params : option (list Param))
| PoolExecute (p : nat) (sql : string) (params : option (list Param))
| PoolEnd (p : nat)
| GetConnection (p : nat)
| BeginTransaction
| Commit
| Rollback
| Release
| Log (l : DbLog).

(** The driver: how each call completes, given the calls made before
    it; and the [TypeError] of a method call on [null]. *)
Record Driver : Type := mkDriver {
  createPool : list Call -> Completion unit;
  pool_query : list Call -> string -> option (list Param) -> Completion (list Row);
  pool_execute : list Call -> string -> option (list Param) -> Completion ExecResult;
  pool_end : list Call -> Completion unit;
  getConnection : list Call -> Completion unit;
  beginTransaction : list Call -> Completion unit;
  commit : list Call -> Completion unit;
  rollback : list Call -> Completion unit;
  release : list Call -> Completion unit;
  null_pool : JsError
}.

(** The instance: [connectionStatus], [pool] ([None] for [null],
    otherwise the number of the pool) and the calls made so far. *)
Record Db : Type := mkDb {
  connectionStatus : bool;
  pool : option nat;
  calls : list Call
}.

(** [new MySQLUtil()] *)
Definition getInstance : Db :=
  {| connectionStatus := false; pool := None; calls := [] |}.

Definition created (cs : list Call) : nat :=
  length (filter (fun c => match c with CreatePool => true | _ => false end) cs).

Definition invoke {A : Type} (c : Call) (answer : list Call -> Completion A) : Run Db A :=
  fun s => (answer (calls s),
            {| connectionStatus := connectionStatus s; pool := pool s;
               calls := calls s ++ [c] |}).

Definition log (l : DbLog) : Run Db unit :=
  fun s => (Normal tt,
            {| connectionStatus := connectionStatus s; pool := pool s;
               calls := calls s ++ [Log l] |}).

Definition set_connectionStatus (b : bool) : Run Db unit :=
  fun s => (Normal tt,
            {| connectionStatus := b; pool := pool s; calls := calls s |}).

(** [this.pool = mysqlClient.createPool(...)]: assigned when the call
    returns. *)
Definition assign_pool (drv : Driver) : Run Db unit :=
  fun s => match createPool drv (calls s) with
           | Normal _ => (Normal tt,
                          {| connectionStatus := connectionStatus s;
                             pool := Some (created (calls s));
                             calls := calls s ++ [CreatePool] |})
           | Throw e => (Throw e,
                         {| connectionStatus := connectionStatus s; pool := pool s;
                            calls := calls s ++ [CreatePool] |})
           end.

(** A method call on [this.pool]: a [TypeError] when it is [null]. *)
Definition on_pool {A : Type} (drv : Driver) (k : nat -> Run Db A) : Run Db A :=
  fun s => match pool s with
           | Some p => k p s
           | None => (Throw (null_pool drv), s)
           end.

Definition connect_failure_message (errorMessage : string) : string :=
  "数据库连接失败: " ++ errorMessage ++ "，请检查数据库配置和服务状态".

Definition connect (drv : Driver) : Run Db unit :=
  fun s =>
    if connectionStatus s then (Normal tt, s)
    else
      attempt
        (log Connecting ;>
         assign_pool drv ;>
         on_pool drv (fun p =>
           invoke (PoolQuery p "SELECT 1 AS connection_test" None)
                  (fun cs => pool_query drv cs "SELECT 1 AS connection_test" None)) ;>
         set_connectionStatus true ;>
         log Connected)
        (fun error =>
           let errorMessage := error_message error in
           log (ConnectFailed errorMessage) ;>
           raise (PlainError (connect_failure_message errorMessage)))
        s.

Definition close (drv : Driver) : Run Db unit :=
  fun s =>
    if negb (connectionStatus s) || match pool s with None => true | Some _ => false end
    then (Normal tt, s)
    else
      attempt
        (on_pool drv (fun p => invoke (PoolEnd p) (pool_end drv)) ;>
         set_connectionStatus false ;>
         log Closed)
        (fun error => log CloseFailed ;> raise error)
        s.

Definition query (drv : Driver) (sql : string) (params : option (list Param))
    : Run Db (list Row) :=
  connect drv ;>
  attempt
    (log (QueryDebug sql) ;>
     let! rows := on_pool drv (fun p =>
                    invoke (PoolQuery p sql params)
                           (fun cs => pool_query drv cs sql params)) in
     log (QueryOk sql (length rows)) ;>
     pure rows)
    (fun error => log (QueryFailed sql) ;> raise error).

Definition execute (drv : Driver) (sql : string) (params : option (list Param))
    : Run Db ExecResult :=
  connect drv ;>
  attempt
    (log (ExecuteDebug sql) ;>
     let! result := on_pool drv (fun p =>
                      invoke (PoolExecute p sql params)
                             (fun cs => pool_execute drv cs sql params)) in
     log (ExecuteOk sql) ;>
     pure {| affectedRows := affectedRows result; insertId := insertId result |})
    (fun error => log (ExecuteFailed sql) ;> raise error).

(** [`${key} = ?`] for each entry. *)
Definition clauses (o : QueryParams) : list string :=
  map (fun kv => fst kv ++ " = ?") o.

(** A string in a condition: [undefined] and the empty string are
    falsy. *)
Definition truthy (o : option string) : bool :=
  match o with
  | Some s => negb (String.eqb s "")
  | None => false
  end.

(** The statement and the parameters [findAll] hands to [query]. *)
Definition findAll_statement (table : string) (conditions : option QueryParams)
    (fields : option (list string)) (orderBy : option string)
    (limit offset : option Z) : string * list Param :=
  let fields := match fields with Some f => f | None => ["*"] end in
  let sql := "SELECT " ++ String.concat ", " fields ++ " FROM " ++ table in
  let params : list Param := [] in
  let (sql, params) :=
    match conditions with
    | Some c =>
        if (0 <? length (keys c))%nat
        then (sql ++ " WHERE " ++ String.concat " AND " (clauses c),
              (params ++ map PValue (values c))%list)
        else (sql, params)
    | None => (sql, params)
    end in
  let sql := if truthy orderBy
             then sql ++ " ORDER BY " ++ match orderBy with Some o => o | None => "" end
             else sql in
  match limit with
  | Some l =>
      let sql := sql ++ " LIMIT ?" in
      let params := (params ++ [PNumber l])%list in
      match offset with
      | Some o => (sql ++ " OFFSET ?", (params ++ [PNumber o])%list)
      | None => (sql, params)
      end
  | None => (sql, params)
  end.

Definition findAll (drv : Driver) (table : string) (conditions : option QueryParams)
    (fields : option (list string)) (orderBy : option string)
    (limit offset : option Z) : Run Db (list Row) :=
  let (sql, params) := findAll_statement table conditions fields orderBy limit offset in
  log (FindAllDebug sql) ;>
  query drv sql (Some params).

(** [findOne]: the first row, [None] for [null]. *)
Definition findOne (drv : Driver) (table : string) (conditions : QueryParams)
    (fields : option (list string)) : Run Db (option Row) :=
  let! results := findAll drv table (Some conditions) fields None (Some 1%Z) None in
  pure (match results with
        | first :: _ => Some first
        | [] => None
        end).

(** [!data || Object.keys(data).length === 0] *)
Definition is_empty (data : option QueryParams) : bool :=
  match data with
  | None => true
  | Some d => (length (keys d) =? 0)%nat
  end.

Definition entries (data : option QueryParams) : QueryParams :=
  match data with Some d => d | None => [] end.

Definition insert_statement (table : string) (data : QueryParams) : string * list Param :=
  let columns := keys data in
  let placeholders := map (fun _ => "?") columns in
  let values := values data in
  ("INSERT INTO " ++ table ++ " (" ++ String.concat ", " columns ++ ") VALUES ("
     ++ String.concat ", " placeholders ++ ")",
   map PValue values).

(** [insert] returns [{ id: result.insertId || 0, affectedRows }]. *)
Definition insert (drv : Driver) (table : string) (data : option QueryParams)
    : Run Db (Z * Z) :=
  if is_empty data then raise (PlainError "插入数据不能为空")
  else
    let (sql, values) := insert_statement table (entries data) in
    let! result := execute drv sql (Some values) in
    pure (match insertId result with
          | Some id => if (id =? 0)%Z then 0%Z else id
          | None => 0%Z
          end,
          affectedRows result).

Definition update_statement (table : string) (data conditions : QueryParams)
    : string * list Param :=
  let updateClauses := clauses data in
  let params := map PValue (values data) in
  let conditionClauses := clauses conditions in
  let params := (params ++ map PValue (values conditions))%list in
  ("UPDATE " ++ table ++ " SET " ++ String.concat ", " updateClauses ++ " WHERE "
     ++ String.concat " AND " conditionClauses,
   params).

Definition update (drv : Driver) (table : string) (data conditions : option QueryParams)
    : Run Db Z :=
  if is_empty data then raise (PlainError "更新数据不能为空")
  else if is_empty conditions then raise (PlainError "更新条件不能为空")
  else
    let (sql, params) := update_statement table (entries data) (entries conditions) in
    let! result := execute drv sql (Some params) in
    pure (affectedRows result).

Definition delete_statement (table : string) (conditions : QueryParams)
    : string * list Param :=
  ("DELETE FROM " ++ table ++ " WHERE " ++ String.concat " AND " (clauses conditions),
   map PValue (values conditions)).

Definition delete (drv : Driver) (table : string) (conditions : option QueryParams)
    : Run Db Z :=
  if is_empty conditions then raise (PlainError "删除条件不能为空")
  else
    let (sql, params) := delete_statement table (entries conditions) in
    let! result := execute drv sql (Some params) in
    pure (affectedRows result).

(** [connection.release()] in the [finally]; the calls before the
    [try] are not covered by it. *)
Definition transaction {T : Type} (drv : Driver) (callback : Run Db T) : Run Db T :=
  connect drv ;>
  on_pool drv (fun p => invoke (GetConnection p) (getConnection drv)) ;>
  invoke BeginTransaction (beginTransaction drv) ;>
  finally
    (attempt
       (log TransactionBegin ;>
        let! result := callback in
        invoke Commit (commit drv) ;>
        log TransactionOk ;>
        pure result)
       (fun error =>
          log (TransactionFailed (error_message error)) ;>
          invoke Rollback (rollback drv) ;>
          raise error))
    (invoke Release (release drv)).

Definition getConnectionStatus : Run Db bool :=
  fun s => (Normal (connectionStatus s), s).

(** The check of one object of [dataList] against the columns of the
    first. *)
Definition same_columns (columns : list string) (data : QueryParams) : bool :=
  let currentColumns := keys data in
  (length currentColumns =? length columns)%nat
  && forallb (fun col => includes currentColumns col) columns.

(** [params.push(data[col])] for each column: the value stored under
    the column as it is, and [undefined] for a column the object does
    not have. *)
Definition row_params (columns : list string) (data : QueryParams) : list Param :=
  map (fun col => match get data col with
                  | Some v => PValue v
                  | None => PUndefined
                  end) columns.

Definition batchInsert_statement (table : string) (columns : list string)
    (dataList : list QueryParams) : string * list Param :=
  let singlePlaceholder :=
    "(" ++ String.concat ", " (map (fun _ => "?") columns) ++ ")" in
  let placeholders := String.concat ", " (map (fun _ => singlePlaceholder) dataList) in
  ("INSERT INTO " ++ table ++ " (" ++ String.concat ", " columns ++ ") VALUES "
     ++ placeholders,
   flat_map (row_params columns) dataList).

(** [batchInsert] calls [this.pool.execute] itself; it does not call
    [connect]. It returns [{ affectedRows, insertId }]. *)
Definition batchInsert (drv : Driver) (table : string)
    (dataList : option (list QueryParams)) : Run Db ExecResult :=
  match dataList with
  | None | Some [] => raise (PlainError "批量插入数据不能为空")
  | Some ((firstItem :: _) as dataList) =>
      let columns := keys firstItem in
      if (length columns =? 0)%nat then raise (PlainError "插入数据不能为空对象")
      else if negb (forallb (same_columns columns) dataList)
      then raise (PlainError "批量插入的所有数据对象必须具有相同的列")
      else
        let (sql, params) := batchInsert_statement table columns dataList in
        log (BatchDebug sql (length dataList)) ;>
        attempt
          (let! result := on_pool drv (fun p =>
                            invoke (PoolExecute p sql (Some params))
                                   (fun cs => pool_execute drv cs sql (Some params))) in
           log (BatchOk table) ;>
           pure {| affectedRows := affectedRows result; insertId := insertId result |})
          (fun error => log (BatchFailed table) ;> raise error)
  end.

(** The calls a user makes on a connected or unconnected instance. An
    exception of a call is the caller's; the instance lives on in the
    state the call left. *)
Inductive Op : Type :=
| OpConnect
| OpQuery (sql : string) (params : option (list Param))
| OpExecute (sql : string) (params : option (list Param))
| OpFindAll (table : string) (conditions : option QueryParams)
    (fields : option (list string)) (orderBy : option string) (limit offset : option Z)
| OpFindOne (table : string) (conditions : QueryParams) (fields : option (list string))
| OpInsert (table : string) (data : option QueryParams)
| OpUpdate (table : string) (data conditions : option QueryParams)
| OpDelete (table : string) (conditions : option QueryParams)
| OpBatchInsert (table : string) (dataList : option (list QueryParams)).

Definition apply_op (drv : Driver) (s : Db) (o : Op) : Db :=
  match o with
  | OpConnect => snd (connect drv s)
  | OpQuery sql params => snd (query drv sql params s)
  | OpExecute sql params => snd (execute drv sql params s)
  | OpFindAll t c f o l off => snd (findAll drv t c f o l off s)
  | OpFindOne t c f => snd (findOne drv t c f s)
  | OpInsert t d => snd (insert drv t d s)
  | OpUpdate t d c => snd (update drv t d c s)
  | OpDelete t c => snd (delete drv t c s)
  | OpBatchInsert t l => snd (batchInsert drv t l s)
  end.

Definition apply_ops (drv : Driver) (ops : list Op) (s : Db) : Db :=
  fold_left (apply_op drv) ops s.

(** How often a kind of call occurs in a history. *)
Definition occurrences (kind : Call -> bool) (cs : list Call) : nat :=
  length (filter kind cs).

Definition is_release (c : Call) : bool :=
  match c with Release => true | _ => false end.

Definition is_commit (c : Call) : bool :=
  match c with Commit => true | _ => false end.

Definition is_rollback (c : Call) : bool :=
  match c with Rollback => true | _ => false end.

Definition is_pool_end (c : Call) : bool :=
  match c with PoolEnd _ => true | _ => false end.

(** The number of question marks of a string. *)
Fixpoint marks (s : string) : nat :=
  match s with
  | EmptyString => 0
  | String c rest => (if Ascii.eqb c "?"%char then 1 else 0) + marks rest
  end.

Definition marks_of (l : list string) : nat :=
  fold_right (fun s n => marks s + n) 0 l.

(** The driver calls of a history, the log entries left out. *)
Definition driver_calls (cs : list Call) : list Call :=
  filter (fun c => match c with Log _ => false | _ => true end) cs.

End WithValues.

End Mysql.

(** ** config/env.ts *)

Module Config.

Record EnvConfig : Type := mkEnvConfig {
  PORT : Z;
  HOST : string;
  WEB_URL : string;
  PREFIX : string;
  DB_URL : string;
  DB_PORT : Z;
  DB_USER : string;
  DB_PASSWORD : string;
  DB_DATABASE : string;
  DEL_LOG_TIME : Z
}.

Definition development : EnvConfig :=
  {| PORT := 8000; HOST := "127.0.0.1"; WEB_URL := "localhost:5173"; PREFIX := "/api";
     DB_URL := "localhost"; DB_PORT := 3306; DB_USER := "root"; DB_PASSWORD := "123456";
     DB_DATABASE := "deno"; DEL_LOG_TIME := 12 |}.

Definition test : EnvConfig :=
  {| PORT := 8001; HOST := "127.0.0.1"; WEB_URL := "localhost:5173"; PREFIX := "/api";
     DB_URL := "localhost"; DB_PORT := 3306; DB_USER := "root"; DB_PASSWORD := "123456";
     DB_DATABASE := "deno"; DEL_LOG_TIME := 12 |}.

Definition production : EnvConfig :=
  {| PORT := 80; HOST := "0.0.0.0"; WEB_URL := "localhost:5173"; PREFIX := "/api";
     DB_URL := "localhost"; DB_PORT := 3306; DB_USER := "root"; DB_PASSWORD := "123456";
     DB_DATABASE := "deno"; DEL_LOG_TIME := 12 |}.

(** [envConfigs[name]] for an arbitrary string: one of the three own
    entries, a member inherited from [Object.prototype] (a function or
    an object: truthy, and without any of the settings), or
    [undefined]. *)
Inductive Lookup : Type :=
| Own (c : EnvConfig)
| Inherited
| Absent.

Definition object_prototype_names : list string :=
  ["constructor"; "__defineGetter__"; "__defineSetter__"; "hasOwnProperty";
   "__lookupGetter__"; "__lookupSetter__"; "isPrototypeOf"; "propertyIsEnumerable";
   "toString"; "valueOf"; "__proto__"; "toLocaleString"].

Definition envConfigs (name : string) : Lookup :=
  if String.eqb name "development" then Own development
  else if String.eqb name "test" then Own test
  else if String.eqb name "production" then Own production
  else if existsb (String.eqb name) object_prototype_names then Inherited
  else Absent.

(** The argument [Number] is applied to for a numeric setting. *)
Inductive NumberArg : Type :=
| OfString (s : string)
| OfNumber (z : Z)
| OfUndefined.

(** What [getEnv] returns; a setting is [None] when it is
    [undefined]. *)
Record Resolved : Type := mkResolved {
  r_PORT : NumberArg;
  r_HOST : option string;
  r_WEB_URL : option string;
  r_PREFIX : option string;
  r_DB_URL : option string;
  r_DB_PORT : NumberArg;
  r_DB_USER : option string;
  r_DB_PASSWORD : option string;
  r_DB_DATABASE : option string;
  r_DEL_LOG_TIME : NumberArg
}.

(** A configuration returned as it stands. *)
Definition as_resolved (c : EnvConfig) : Resolved :=
  {| r_PORT := OfNumber (PORT c); r_HOST := Some (HOST c);
     r_WEB_URL := Some (WEB_URL c); r_PREFIX := Some (PREFIX c);
     r_DB_URL := Some (DB_URL c); r_DB_PORT := OfNumber (DB_PORT c);
     r_DB_USER := Some (DB_USER c); r_DB_PASSWORD := Some (DB_PASSWORD c);
     r_DB_DATABASE := Some (DB_DATABASE c);
     r_DEL_LOG_TIME := OfNumber (DEL_LOG_TIME c) |}.

(** The object of [Deno.env.toObject()]. *)
Definition SysEnv : Type := string -> option string.

(** [sysEnv.X || d] for a string setting: an unset or empty variable
    gives the default. *)
Definition or_else (v : option string) (d : option string) : option string :=
  match v with
  | Some s => if String.eqb s "" then d else Some s
  | None => d
  end.

(** [sysEnv.X || d] as the argument of [Number]. *)
Definition number_of (v : option string) (d : option Z) : NumberArg :=
  match v with
  | Some s => if String.eqb s "" then match d with Some z => OfNumber z | None => OfUndefined end
              else OfString s
  | None => match d with Some z => OfNumber z | None => OfUndefined end
  end.

Inductive EnvLog : Type :=
| CurrentEnvironment (name : string)
| ReadFailed (e : JsError).

Definition merge (sysEnv : SysEnv) (d : option EnvConfig) : Resolved :=
  let str (f : EnvConfig -> string) := option_map f d in
  let num (f : EnvConfig -> Z) := option_map f d in
  {| r_PORT := number_of (sysEnv "PORT") (num PORT);
     r_HOST := or_else (sysEnv "HOST") (str HOST);
     r_WEB_URL := or_else (sysEnv "WEB_URL") (str WEB_URL);
     r_PREFIX := or_else (sysEnv "API_URL") (str PREFIX);
     r_DB_URL := or_else (sysEnv "DB_URL") (str DB_URL);
     r_DB_PORT := number_of (sysEnv "DB_PORT") (num DB_PORT);
     r_DB_USER := or_else (sysEnv "DB_USER") (str DB_USER);
     r_DB_PASSWORD := or_else (sysEnv "DB_PASSWORD") (str DB_PASSWORD);
     r_DB_DATABASE := or_else (sysEnv "DB_DATABASE") (str DB_DATABASE);
     r_DEL_LOG_TIME := number_of (sysEnv "DEL_LOG_TIME") (num DEL_LOG_TIME) |}.

(** [sysEnv.DENO_ENV || "development"] *)
Definition currentEnv (sysEnv : SysEnv) : string :=
  match or_else (sysEnv "DENO_ENV") (Some "development") with
  | Some n => n
  | None => "development"
  end.

(** [getEnv], given how [Deno.env.toObject()] completes: the settings
    and what was logged. *)
Definition getEnv (toObject : Completion SysEnv) : Resolved * list EnvLog :=
  let tried : Run (list EnvLog) Resolved :=
    attempt
      (let! sysEnv := (fun l => (toObject, l)) in
       let currentEnv := currentEnv sysEnv in
       let defaultConfig := envConfigs currentEnv in
       match defaultConfig with
       | Absent => raise (PlainError ("未知的环境类型: " ++ currentEnv))
       | Own c =>
           (fun l => (Normal tt, (l ++ [CurrentEnvironment currentEnv])%list)) ;>
           pure (merge sysEnv (Some c))
       | Inherited =>
           (fun l => (Normal tt, (l ++ [CurrentEnvironment currentEnv])%list)) ;>
           pure (merge sysEnv None)
       end)
      (fun error =>
         (fun l => (Normal tt, (l ++ [ReadFailed error])%list)) ;>
         pure (as_resolved development)) in
  match tried [] with
  | (Normal r, l) => (r, l)
  | (Throw _, l) => (as_resolved development, l)
  end.

(** The variables [getEnv] reads. *)
Definition read_names : list string :=
  ["DENO_ENV"; "PORT"; "HOST"; "WEB_URL"; "API_URL"; "DB_URL"; "DB_PORT"; "DB_USER";
   "DB_PASSWORD"; "DB_DATABASE"; "DEL_LOG_TIME"].

(** The environment with one variable set. *)
Definition setenv (name value : string) (sysEnv : SysEnv) : SysEnv :=
  fun n => if String.eqb n name then Some value else sysEnv n.

Definition no_variables : SysEnv := fun _ => None.

End Config.

(** ** utils/logger.ts *)

(** [s.lastIndexOf(c)] for a one-character [c]: the index of the last
    occurrence, [-1] when there is none. [i] is the index of the head
    of [s], [found] the last occurrence before it. *)
Fixpoint lastIndexOf_from (s : string) (c : ascii) (i found : Z) : Z :=
  match s with
  | EmptyString => found
  | String a rest =>
      lastIndexOf_from rest c (i + 1) (if Ascii.eqb a c then i else found)
  end.

Definition lastIndexOf (s : string) (c : ascii) : Z := lastIndexOf_from s c 0 (-1).

(** [s.substring(start, finish)]: both indices are clamped to the
    string and swapped when out of order. *)
Definition js_substring (s : string) (start finish : Z) : string :=
  let len := Z.of_nat (String.length s) in
  let clamp z := Z.max 0 (Z.min z len) in
  let a := Z.min (clamp start) (clamp finish) in
  let b := Z.max (clamp start) (clamp finish) in
  String.substring (Z.to_nat a) (Z.to_nat (b - a)) s.

Definition newline : string := String (ascii_of_nat 10) EmptyString.

Inductive ConsoleMethod : Type :=
| console_debug | console_info | console_warn | console_error | console_log.

(** What a logger does to the outside. *)
Inductive Output : Type :=
| Console (m : ConsoleMethod) (line : string)
| Mkdir (dir : string)
| WriteTextFile (path text : string).

(** The file system: how [Deno.mkdir] and [Deno.writeTextFile]
    complete, given what was done before. *)
Record FileSystem : Type := mkFileSystem {
  mkdir : list Output -> string -> Completion unit;
  writeTextFile : list Output -> string -> string -> Completion unit
}.

Definition output (o : Output) : Run (list Output) unit :=
  fun l => (Normal tt, (l ++ [o])%list).

Definition fs_call {A : Type} (o : Output) (answer : list Output -> Completion A)
    : Run (list Output) A :=
  fun l => (answer l, (l ++ [o])%list).

(** The directory of a log file: all before its last slash. *)
Definition log_directory (path : string) : string :=
  js_substring path 0 (lastIndexOf path "/"%char).

(** [writeToFile], the same in both versions of the class. *)
Definition writeToFile (fs : FileSystem) (path message : string)
    : Run (list Output) unit :=
  attempt
    (let dir := log_directory path in
     attempt (fs_call (Mkdir dir) (fun l => mkdir fs l dir))
             (fun _error => pure tt) ;>
     fs_call (WriteTextFile path (message ++ newline))
             (fun l => writeTextFile fs l path (message ++ newline)))
    (fun error =>
       output (Console console_error ("写入日志文件失败: " ++ error_message error))).

(** A call of [writeToFile] that is not awaited runs up to its first
    [await] and is suspended there: [Deno.mkdir] has been called, and
    the rest of the body runs when the runtime resumes it, after
    whatever has happened in between. [s_mkdir] is how the pending
    [Deno.mkdir] completes. *)
Record Suspended : Type := mkSuspended {
  s_path : string;
  s_message : string;
  s_mkdir : Completion unit
}.

(** The body of [writeToFile] up to its first [await]. *)
Definition writeToFile_start (fs : FileSystem) (path message : string)
    (l : list Output) : Suspended * list Output :=
  let dir := log_directory path in
  ({| s_path := path; s_message := message; s_mkdir := mkdir fs l dir |},
   (l ++ [Mkdir dir])%list).

(** The body of [writeToFile] from its first [await] on. *)
Definition writeToFile_resume (fs : FileSystem) (w : Suspended)
    : Run (list Output) unit :=
  attempt
    (attempt (fun l => (s_mkdir w, l)) (fun _error => pure tt) ;>
     fs_call (WriteTextFile (s_path w) (s_message w ++ newline))
             (fun l => writeTextFile fs l (s_path w) (s_message w ++ newline)))
    (fun error =>
       output (Console console_error ("写入日志文件失败: " ++ error_message error))).

(** The class with levels. Its [log] is not [async] and calls
    [writeToFile] without awaiting it. *)
Module LeveledLogger.

Inductive LogLevel : Type := DEBUG | INFO | WARN | ERROR.

Definition level_text (l : LogLevel) : string :=
  match l with
  | DEBUG => "DEBUG" | INFO => "INFO" | WARN => "WARN" | ERROR => "ERROR"
  end.

Definition levelOrder (l : LogLevel) : nat :=
  match l with
  | DEBUG => 0 | INFO => 1 | WARN => 2 | ERROR => 3
  end.

Definition consoleMethod (l : LogLevel) : ConsoleMethod :=
  match l with
  | DEBUG => console_debug | INFO => console_info
  | WARN => console_warn | ERROR => console_error
  end.

Record Logger : Type := mkLogger {
  logFile : string;
  logLevel : LogLevel
}.

(** [new Logger()] *)
Definition logger : Logger := {| logFile := "./logs/app.log"; logLevel := INFO |}.

(** What the logger has done to the outside, and the calls of
    [writeToFile] it has started and left suspended, oldest first. *)
Record LoggerState : Type := mkLoggerState {
  outputs : list Output;
  suspended : list Suspended
}.

(** [log]. [timestamp] is [new Date().toISOString()]; [data] is [None]
    for [undefined], otherwise how turning the data into a string
    completes. The last statement starts [writeToFile] and returns. *)
Definition log (fs : FileSystem) (this : Logger) (timestamp : string)
    (level : LogLevel) (message : string) (data : option (Completion string))
    : Run LoggerState unit :=
  if (levelOrder level <? levelOrder (logLevel this))%nat then pure tt
  else
    let logMessage := "[" ++ timestamp ++ "] [" ++ level_text level ++ "] " ++ message in
    let logMessage :=
      match data with
      | None => logMessage
      | Some (Normal dataString) => logMessage ++ " - " ++ dataString
      | Some (Throw _) => logMessage ++ " - [无法序列化的数据]"
      end in
    fun st =>
      let out := (outputs st ++ [Console (consoleMethod level) logMessage])%list in
      let (w, out') := writeToFile_start fs (logFile this) logMessage out in
      (Normal tt, {| outputs := out'; suspended := (suspended st ++ [w])%list |}).

(** The runtime resumes the suspended call at position [n], in the
    order it chooses: the call runs to its end. *)
Definition resume (fs : FileSystem) (n : nat) (st : LoggerState) : LoggerState :=
  match nth_error (suspended st) n with
  | Some w =>
      {| outputs := snd (writeToFile_resume fs w (outputs st));
         suspended := (firstn n (suspended st) ++ skipn (S n) (suspended st))%list |}
  | None => st
  end.

Definition debug fs this ts message data := log fs this ts DEBUG message data.
Definition info fs this ts message data := log fs this ts INFO message data.
Definition warn fs this ts message data := log fs this ts WARN message data.
Definition error fs this ts message data := log fs this ts ERROR message data.

End LeveledLogger.

(** The class with one shared instance. *)
Module Logger.

Inductive LogLevel : Type := INFO | WARN | ERROR | DEBUG.

Definition level_text (l : LogLevel) : string :=
  match l with
  | INFO => "INFO" | WARN => "WARN" | ERROR => "ERROR" | DEBUG => "DEBUG"
  end.

(** A [LogConfig]; an option left out is [None]. *)
Record LogConfig : Type := mkLogConfig {
  cfg_logFilePath : string;
  cfg_console : option bool;
  cfg_timestamp : option bool
}.

Record Logger : Type := mkLogger {
  logFilePath : string;
  enableConsole : bool;
  enableTimestamp : bool
}.

(** [new Logger(config)] *)
Definition new (config : LogConfig) : Logger :=
  {| logFilePath := cfg_logFilePath config;
     enableConsole := match cfg_console config with Some b => b | None => true end;
     enableTimestamp := match cfg_timestamp config with Some b => b | None => true end |}.

(** [Logger.getInstance(config)] on the static [instance]: the
    instance returned and the static field afterwards. *)
Definition getInstance (config : option LogConfig) (instance : option Logger)
    : Logger * option Logger :=
  match instance with
  | Some l => (l, Some l)
  | None =>
      let l := new (match config with
                    | Some c => c
                    | None => {| cfg_logFilePath := "./logs/app.log";
                                 cfg_console := None; cfg_timestamp := None |}
                    end) in
      (l, Some l)
  end.

(** [formatMessage]. [now] is [moment().format(...)]; [meta] is [None]
    for [undefined], otherwise the text [JSON.stringify] gives. *)
Definition formatMessage (this : Logger) (now : string) (level : LogLevel)
    (message : string) (meta : option string) : string :=
  let timestamp := if enableTimestamp this then "[" ++ now ++ "]" else "" in
  let metaString := match meta with Some m => " - " ++ m | None => "" end in
  timestamp ++ " [" ++ level_text level ++ "] " ++ message ++ metaString.

Definition log (fs : FileSystem) (this : Logger) (now : string) (level : LogLevel)
    (message : string) (meta : option string) : Run (list Output) unit :=
  let formattedMessage := formatMessage this now level message meta in
  (if enableConsole this
   then output (Console (match level with
                         | ERROR => console_error
                         | WARN => console_warn
                         | _ => console_log
                         end) formattedMessage)
   else pure tt) ;>
  writeToFile fs (logFilePath this) formattedMessage.

Definition info fs this now message meta := log fs this now INFO message meta.
Definition error fs this now message meta := log fs this now ERROR message meta.

End Logger.

(** ** utils/cron.ts *)

Module Cron.

Section WithTasks.

(** The type of the task functions. *)
Context {Task : Type}.

Record CronJobConfig : Type := mkCronJobConfig {
  name : string;
  schedule : string;
  task : Task
}.

(** What surrounds the manager: the static instance of [Logger], the
    map of jobs in insertion order, the callbacks registered with
    [cron] (each with the configuration it closes over), and what the
    logger did. *)
Record World : Type := mkWorld {
  logger_instance : option Logger.Logger;
  jobs : list (string * CronJobConfig);
  scheduled : list CronJobConfig;
  outputs : list Output
}.

(** The clock and [JSON.stringify] on the entries of a [meta]
    object. *)
Record Clock : Type := mkClock {
  now : list Output -> string;
  toISOString : Z -> string;
  show_duration : Z -> string;
  JSON_stringify : list (string * string) -> string
}.

(** After [logger.ts] is loaded: its last line has created the shared
    logger with the default path. *)
Definition loaded : World :=
  {| logger_instance := snd (Logger.getInstance None None);
     jobs := []; scheduled := []; outputs := [] |}.

(** The constructor of the manager asks for the logger of
    [./logs/cron.log]. *)
Definition manager_logger (w : World) : Logger.Logger * option Logger.Logger :=
  Logger.getInstance
    (Some {| Logger.cfg_logFilePath := "./logs/cron.log";
             Logger.cfg_console := None; Logger.cfg_timestamp := None |})
    (logger_instance w).

(** [this.logger.log(...)] in a world. *)
Definition write (fs : FileSystem) (clock : Clock) (level : Logger.LogLevel)
    (message : string) (meta : option string) : Run World unit :=
  fun w =>
    let (lg, inst) := manager_logger w in
    match Logger.log fs lg (now clock (outputs w)) level message meta (outputs w) with
    | (c, out) => (c, {| logger_instance := inst; jobs := jobs w;
                         scheduled := scheduled w; outputs := out |})
    end.

(** [this.jobs.has(n)] *)
Definition has (w : World) (n : string) : bool :=
  existsb (fun kv => String.eqb (fst kv) n) (jobs w).

Definition addJob (fs : FileSystem) (clock : Clock) (config : CronJobConfig)
    : Run World unit :=
  fun w =>
    if has w (name config)
    then (Throw (PlainError ("Job with name " ++ name config ++ " already exists")), w)
    else
      ((fun w => (Normal tt, {| logger_instance := logger_instance w;
                                jobs := (jobs w ++ [(name config, config)])%list;
                                scheduled := scheduled w; outputs := outputs w |})) ;>
       write fs clock Logger.INFO
         ("Adding new cron job: " ++ name config ++ " with schedule: " ++ schedule config)
         None ;>
       (fun w => (Normal tt, {| logger_instance := logger_instance w; jobs := jobs w;
                                scheduled := (scheduled w ++ [config])%list;
                                outputs := outputs w |})))
        w.

Definition removeJob (fs : FileSystem) (clock : Clock) (jobName : string)
    : Run World unit :=
  fun w =>
    if negb (has w jobName)
    then (Throw (PlainError ("Job with name " ++ jobName ++ " does not exist")), w)
    else
      ((fun w => (Normal tt, {| logger_instance := logger_instance w;
                                jobs := filter (fun kv => negb (String.eqb (fst kv) jobName))
                                               (jobs w);
                                scheduled := scheduled w; outputs := outputs w |})) ;>
       write fs clock Logger.INFO ("Removed cron job: " ++ jobName) None)
        w.

(** [getJobs]: a copy of the map. *)
Definition getJobs (w : World) : list (string * CronJobConfig) := jobs w.

(** [writeLog]. The error text enters the [meta] only when it is not
    empty. *)
Definition writeLog (fs : FileSystem) (clock : Clock) (jobName : string)
    (startTime endTime : Z) (failure : option string) : Run World unit :=
  let duration := (endTime - startTime)%Z in
  let shown := show_duration clock duration ++ "ms" in
  let status := match failure with None => "success" | Some _ => "error" end in
  let spread : list (string * string) :=
    match failure with
    | Some e => if String.eqb e "" then [] else [("error", e)]
    | None => []
    end in
  let meta :=
    ([("jobName", jobName);
      ("startTime", toISOString clock startTime);
      ("endTime", toISOString clock endTime);
      ("duration", shown);
      ("status", status)] ++ spread)%list in
  match failure with
  | None => write fs clock Logger.INFO
              ("Cron job " ++ jobName ++ " completed successfully")
              (Some (JSON_stringify clock meta))
  | Some _ => write fs clock Logger.ERROR
                ("Cron job " ++ jobName ++ " failed")
                (Some (JSON_stringify clock meta))
  end.

(** The callback [addJob] registers, run once: [outcome] is how
    [config.task()] completes, [startTime] and [endTime] the two
    readings of the clock. *)
Definition run_job (fs : FileSystem) (clock : Clock) (config : CronJobConfig)
    (outcome : Completion unit) (startTime endTime : Z) : Run World unit :=
  attempt
    ((fun w => (outcome, w)) ;>
     writeLog fs clock (name config) startTime endTime None)
    (fun error =>
       writeLog fs clock (name config) startTime endTime (Some (error_message error))).

(** What happens to a manager: a job is added, a job is removed, the
    scheduler fires the [i]-th registered callback. An exception of
    [addJob] or [removeJob] is the caller's. *)
Inductive Op : Type :=
| AddJob (config : CronJobConfig)
| RemoveJob (jobName : string)
| Fire (i : nat) (outcome : Completion unit) (startTime endTime : Z).

Definition apply_op (fs : FileSystem) (clock : Clock) (w : World) (o : Op) : World :=
  match o with
  | AddJob config => snd (addJob fs clock config w)
  | RemoveJob jobName => snd (removeJob fs clock jobName w)
  | Fire i outcome startTime endTime =>
      match nth_error (scheduled w) i with
      | Some config => snd (run_job fs clock config outcome startTime endTime w)
      | None => w
      end
  end.

Definition apply_ops (fs : FileSystem) (clock : Clock) (ops : list Op) (w : World)
    : World :=
  fold_left (apply_op fs clock) ops w.

(** The files written to. *)
Definition written_paths (out : list Output) : list string :=
  flat_map (fun o => match o with WriteTextFile path _ => [path] | _ => [] end) out.

End WithTasks.

End Cron.

(** ** The routes of [read/index.ts] *)

Module Routes.

(** What a route assigns to [ctx.response.body]: the envelope of
    [successBody] or the one of [errorBody]. *)
Inductive RouteBody (D : Type) : Type :=
| Success (e : Envelope D)
| Failure (e : Envelope Empty_set).
Arguments Success {D} _.
Arguments Failure {D} _.

(** The state of a route: the body of the response ([None] while
    unset) and the world it acts on. *)
Record RouteState (D X : Type) : Type := mkRouteState {
  body : option (RouteBody D);
  world : X
}.
Arguments mkRouteState {D X} _ _.
Arguments body {D X} _.
Arguments world {D X} _.

Definition set_body {D X : Type} (b : RouteBody D) : Run (RouteState D X) unit :=
  fun s => (Normal tt, {| body := Some b; world := world s |}).

(** A call on the world of the route. *)
Definition within {D X A : Type} (m : Run X A) : Run (RouteState D X) A :=
  fun s => match m (world s) with
           | (c, x) => (c, {| body := body s; world := x |})
           end.

(** [!url] for the result of [searchParams.get]: [null] and the empty
    string. *)
Definition missing (v : option string) : bool :=
  match v with
  | Some s => String.eqb s ""
  | None => true
  end.

Definition given (v : option string) : string :=
  match v with Some s => s | None => "" end.

Section Files.

(** [Data] is what [parse] and [sheet_to_json] return, [Sheet] a
    worksheet. *)
Context {Data Sheet : Type}.

(** The file calls of the two readers, in the order made. *)
Inductive FileCall : Type :=
| ReadTextFile (url : string)
| XlsxReadFile (url : string).

(** A workbook as the route uses it. *)
Record Workbook : Type := mkWorkbook {
  SheetNames : list string;
  Sheets : string -> option Sheet
}.

(** [Deno.readTextFile], [parse] with [skipFirstRow], [xlsx.readFile]
    and [xlsx.utils.sheet_to_json]. *)
Record Readers : Type := mkReaders {
  readTextFile : string -> Completion string;
  parse : string -> Completion Data;
  xlsx_readFile : string -> Completion Workbook;
  sheet_to_json : option Sheet -> Completion Data
}.

Definition file_call {A : Type} (c : FileCall) (answer : Completion A)
    : Run (list FileCall) A :=
  fun l => (answer, (l ++ [c])%list).

Definition readFileCSV (rd : Readers) (url : option string)
    : Run (RouteState Data (list FileCall)) unit :=
  if missing url then set_body (Failure (errorBody "缺少url参数"))
  else
    attempt
      (let! file := within (file_call (ReadTextFile (given url))
                                      (readTextFile rd (given url))) in
       let! data := (fun s => (parse rd file, s)) in
       set_body (Success (successBody data)))
      (fun _error => set_body (Failure (errorBody "读取文件失败"))).

(** [file.Sheets[name]] with [name] possibly [undefined], which as a
    key reads [undefined]. *)
Definition first_sheet (file : Workbook) : option Sheet :=
  Sheets file (match SheetNames file with
               | name :: _ => name
               | [] => "undefined"
               end).

Definition readFileExcel (rd : Readers) (url : option string)
    : Run (RouteState Data (list FileCall)) unit :=
  if missing url then set_body (Failure (errorBody "缺少url参数"))
  else
    attempt
      (let! file := within (file_call (XlsxReadFile (given url))
                                      (xlsx_readFile rd (given url))) in
       let sheet := first_sheet file in
       let! data := (fun s => (sheet_to_json rd sheet, s)) in
       set_body (Success (successBody data)))
      (fun _error => set_body (Failure (errorBody "读取文件失败"))).

End Files.

(** The one record [getFileData] inserts. *)
Definition file_record : Mysql.QueryParams (V := string) :=
  [("file_name", "test1"); ("data_table", "test")].

(** [getFileData]: the insert stands outside any [try]. *)
Definition getFileData {Row : Type} (drv : Mysql.Driver (V := string) (Row := Row))
    (fileName : option string)
    : Run (RouteState Mysql.ExecResult (Mysql.Db (V := string))) unit :=
  if missing fileName then set_body (Failure (errorBody "缺少文件名称参数"))
  else
    let! res := within (Mysql.batchInsert drv "set_data_info" (Some [file_record])) in
    set_body (Success (successBody res)).

End Routes.

(** * Properties *)

(** ** Sample inputs *)

Definition dev_env : Env := {| WEB_URL := "localhost:5173"; PREFIX := "/api" |}.

(** The asset request of the scenario, as a browser sends it to the
    proxy listening on 127.0.0.1:8000. *)
Definition asset_request : Request string :=
  {| method := "GET"; pathname := "/assets/app.js"; search := "";
     headers := [("host", "127.0.0.1:8000"); ("accept", "*/*")];
     hasBody := false; body_value := Throw (PlainError "no body") |}.

Definition asset_ctx : Context string :=
  {| request := asset_request; isUpgradable := false;
     upgrade_result := Throw (PlainError "not upgradable") |}.

Definition asset_reply : FetchResponse :=
  {| res_status := 200;
     res_headers := [("content-type", "text/javascript")];
     res_body := Some [list_byte_of_string "console.log(1)"] |}.

Definition oak_status_text (st : Z) : string :=
  if (st =? 501)%Z then "Not Implemented" else "Internal Server Error".

(** A dev server that answers every request with [asset_reply]. *)
Definition live_runtime : Runtime string :=
  {| fetch := fun _ _ => Normal asset_reply;
     new_WebSocket := fun _ => Normal tt;
     STATUS_TEXT := oak_status_text |}.

(** No dev server is listening. *)
Definition dead_runtime : Runtime string :=
  {| fetch := fun _ _ => Throw (PlainError "connection refused");
     new_WebSocket := fun _ => Normal tt;
     STATUS_TEXT := oak_status_text |}.

(** The [WebSocket] constructor rejects the address. *)
Definition broken_runtime : Runtime string :=
  {| fetch := fun _ _ => Throw (PlainError "connection refused");
     new_WebSocket := fun _ => Throw (PlainError "Invalid URL");
     STATUS_TEXT := oak_status_text |}.

(** A hot-reload handshake on [/ws]. *)
Definition hmr_request : Request string :=
  {| method := "GET"; pathname := "/ws"; search := "?token=abc";
     headers := [("host", "127.0.0.1:8000"); ("connection", "Upgrade");
                 ("Upgrade", "WebSocket")];
     hasBody := false; body_value := Throw (PlainError "no body") |}.

Definition hmr_ctx (upgradable : bool) : Context string :=
  {| request := hmr_request; isUpgradable := upgradable;
     upgrade_result := Normal tt |}.

(** A dev-server address with a space in it: no URL can be built from
    it, and the [WebSocket] constructor throws. *)
Definition bad_env : Env := {| WEB_URL := "dev server:5173"; PREFIX := "/api" |}.

(** The client speaks before the socket to the dev server is open, then
    leaves. *)
Definition early_ping : list Relay.Input :=
  [Relay.Opened Downstream; Relay.Arrived Downstream "ping";
   Relay.Opened Upstream; Relay.Finished Downstream].

(** The scenario of the hot-reload socket: both ends open, a ping goes
    up, a pong comes down, the client leaves. *)
Definition ping_pong : list Relay.Input :=
  [Relay.Opened Upstream; Relay.Opened Downstream;
   Relay.Arrived Downstream "ping"; Relay.Arrived Upstream "pong";
   Relay.Finished Downstream].

Definition both_open : Relay.Session :=
  Relay.run [Relay.Opened Upstream; Relay.Opened Downstream] Relay.established.

(** The data of the messages an input list brings to a side. *)
Definition messages_for (s : Side) (inputs : list Relay.Input) : list Relay.Data :=
  flat_map (fun i => match i with
                     | Relay.Arrived s' d => if Relay.side_eqb s' s then [d] else []
                     | _ => []
                     end) inputs.

Definition only_messages (inputs : list Relay.Input) : Prop :=
  Forall (fun i => match i with Relay.Arrived _ _ => True | _ => False end) inputs.

(** An upload whose body cannot be read. *)
Definition upload_ctx : Context string :=
  {| request := {| method := "POST"; pathname := "/upload"; search := "";
                   headers := [("content-type", "application/json")];
                   hasBody := true;
                   body_value := Throw (PlainError "Unexpected end of JSON input") |};
     isUpgradable := false;
     upgrade_result := Throw (PlainError "not upgradable") |}.

(** A call of the API under the prefix, and a route that throws. *)
Definition api_ctx : Context string :=
  {| request := {| method := "GET"; pathname := "/api/getFileData"; search := "";
                   headers := [("accept", "application/json")];
                   hasBody := false; body_value := Throw (PlainError "no body") |};
     isUpgradable := false;
     upgrade_result := Throw (PlainError "not upgradable") |}.

(** A handshake for which [ctx.upgrade()] itself throws. *)
Definition failing_upgrade_ctx : Context string :=
  {| request := hmr_request; isUpgradable := true;
     upgrade_result := Throw (PlainError "upgrade failed") |}.

(** The messages a socket refused to send, oldest first. *)
Definition refused_by (t : Side) (r : Relay.Session) : list Relay.Data :=
  map snd (filter (fun p => Relay.side_eqb (fst p) t) (Relay.refused r)).

(** No socket is closed while the other one is still connecting or
    open. *)
Definition no_half_open (r : Relay.Session) : Prop :=
  forall s, Relay.ready s r = Relay.CLOSED ->
            Relay.ready (other s) r = Relay.CLOSING
            \/ Relay.ready (other s) r = Relay.CLOSED.

(** Messages of both directions, interleaved. *)
Definition chatter : list Relay.Input :=
  [Relay.Arrived Downstream "a"; Relay.Arrived Upstream "x";
   Relay.Arrived Downstream "b"; Relay.Arrived Upstream "y";
   Relay.Arrived Upstream "z"].

(** Records of a table of users, with numbers as values. *)
Definition user_conditions : Mysql.QueryParams (V := Z) := [("status", 1%Z); ("age", 18%Z)].

Definition user_rows : list (Mysql.QueryParams (V := Z)) :=
  [[("id", 1%Z); ("age", 30%Z)]; [("age", 41%Z); ("id", 2%Z)]].

(** Records whose values may be [undefined] ([None]); the second one
    holds [age: undefined]. *)
Definition sparse_rows : list (Mysql.QueryParams (V := option Z)) :=
  [[("id", Some 1%Z); ("age", Some 30%Z)]; [("id", Some 2%Z); ("age", None)]].

Definition absent (v : option Z) : bool :=
  match v with None => true | Some _ => false end.

Definition ok_result : Mysql.ExecResult := {| Mysql.affectedRows := 1; Mysql.insertId := Some 7%Z |}.

(** A database that answers every call. *)
Definition good_driver : Mysql.Driver (V := Z) (Row := Mysql.QueryParams (V := Z)) :=
  {| Mysql.createPool := fun _ => Normal tt;
     Mysql.pool_query := fun _ _ _ => Normal [];
     Mysql.pool_execute := fun _ _ _ => Normal ok_result;
     Mysql.pool_end := fun _ => Normal tt;
     Mysql.getConnection := fun _ => Normal tt;
     Mysql.beginTransaction := fun _ => Normal tt;
     Mysql.commit := fun _ => Normal tt;
     Mysql.rollback := fun _ => Normal tt;
     Mysql.release := fun _ => Normal tt;
     Mysql.null_pool := PlainError "Cannot read properties of null" |}.

(** A database that cannot be reached: pools are created, every
    statement fails. *)
Definition down_driver : Mysql.Driver (V := Z) (Row := Mysql.QueryParams (V := Z)) :=
  {| Mysql.createPool := fun _ => Normal tt;
     Mysql.pool_query := fun _ _ _ => Throw (PlainError "connect ECONNREFUSED");
     Mysql.pool_execute := fun _ _ _ => Throw (PlainError "connect ECONNREFUSED");
     Mysql.pool_end := fun _ => Normal tt;
     Mysql.getConnection := fun _ => Throw (PlainError "connect ECONNREFUSED");
     Mysql.beginTransaction := fun _ => Throw (PlainError "connect ECONNREFUSED");
     Mysql.commit := fun _ => Normal tt;
     Mysql.rollback := fun _ => Normal tt;
     Mysql.release := fun _ => Normal tt;
     Mysql.null_pool := PlainError "Cannot read properties of null" |}.

(** A database on which a transaction cannot be begun. *)
Definition no_begin_driver : Mysql.Driver (V := Z) (Row := Mysql.QueryParams (V := Z)) :=
  {| Mysql.createPool := fun _ => Normal tt;
     Mysql.pool_query := fun _ _ _ => Normal [];
     Mysql.pool_execute := fun _ _ _ => Normal ok_result;
     Mysql.pool_end := fun _ => Normal tt;
     Mysql.getConnection := fun _ => Normal tt;
     Mysql.beginTransaction := fun _ => Throw (PlainError "Lock wait timeout");
     Mysql.commit := fun _ => Normal tt;
     Mysql.rollback := fun _ => Normal tt;
     Mysql.release := fun _ => Normal tt;
     Mysql.null_pool := PlainError "Cannot read properties of null" |}.

(** An instance connected to pool 0. *)
Definition connected_db : Mysql.Db (V := Z) :=
  snd (Mysql.connect good_driver Mysql.getInstance).

(** A deployment that names an environment the table does not know
    and sets a port and a prefix of its own. *)
Definition staging_variables : Config.SysEnv :=
  Config.setenv "DENO_ENV" "staging"
    (Config.setenv "PORT" "9000" (Config.setenv "API_URL" "/v2" Config.no_variables)).

(** A production deployment with an empty host and a dev server of its
    own. *)
Definition production_variables : Config.SysEnv :=
  Config.setenv "DENO_ENV" "production"
    (Config.setenv "HOST" "" (Config.setenv "WEB_URL" "frontend:3000" Config.no_variables)).

(** A disk that is full: directories exist, every write fails. *)
Definition full_disk : FileSystem :=
  {| mkdir := fun _ _ => Throw (PlainError "File exists");
     writeTextFile := fun _ _ _ => Throw (PlainError "No space left on device") |}.

Definition working_disk : FileSystem :=
  {| mkdir := fun _ _ => Normal tt; writeTextFile := fun _ _ _ => Normal tt |}.

Definition fixed_clock : Cron.Clock :=
  {| Cron.now := fun _ => "2025-01-01 00:00:00";
     Cron.toISOString := fun _ => "2025-01-01T00:00:00.000Z";
     Cron.show_duration := fun _ => "0";
     Cron.JSON_stringify := fun _ => "{}" |}.

(** The job of [main.ts] that deletes the log file. *)
Definition del_log : Cron.CronJobConfig (Task := unit) :=
  {| Cron.name := "del_log"; Cron.schedule := "0 */12 * * *"; Cron.task := tt |}.

(** The keys of a job map are distinct and each entry sits under its
    own name. *)
Definition well_keyed {Task : Type} (w : Cron.World (Task := Task)) : Prop :=
  NoDup (map fst (Cron.jobs w))
  /\ Forall (fun kv => fst kv = Cron.name (snd kv)) (Cron.jobs w).

(** The shared logger is the one of [./logs/app.log] and nothing was
    written elsewhere. *)
Definition logs_to_app_log {Task : Type} (w : Cron.World (Task := Task)) : Prop :=
  (exists lg, Cron.logger_instance w = Some lg
              /\ Logger.logFilePath lg = "./logs/app.log")
  /\ Forall (fun path => path = "./logs/app.log") (Cron.written_paths (Cron.outputs w)).

(** Readers for which every file is missing. *)
Definition no_files : Routes.Readers (Data := list string) (Sheet := unit) :=
  {| Routes.readTextFile := fun _ => Throw (PlainError "No such file or directory");
     Routes.parse := fun _ => Normal [];
     Routes.xlsx_readFile := fun _ => Throw (PlainError "No such file or directory");
     Routes.sheet_to_json := fun _ => Normal [] |}.

(** A route that has not answered, on an instance whose pool exists. *)
Definition pending_route : Routes.RouteState Mysql.ExecResult (Mysql.Db (V := string)) :=
  {| Routes.body := None;
     Routes.world := {| Mysql.connectionStatus := false; Mysql.pool := Some 0%nat;
                        Mysql.calls := [Mysql.Log Mysql.Connecting; Mysql.CreatePool] |} |}.

Definition string_driver : Mysql.Driver (V := string) (Row := unit) :=
  {| Mysql.createPool := fun _ => Normal tt;
     Mysql.pool_query := fun _ _ _ => Normal [];
     Mysql.pool_execute := fun _ _ _ => Normal ok_result;
     Mysql.pool_end := fun _ => Normal tt;
     Mysql.getConnection := fun _ => Normal tt;
     Mysql.beginTransaction := fun _ => Normal tt;
     Mysql.commit := fun _ => Normal tt;
     Mysql.rollback := fun _ => Normal tt;
     Mysql.release := fun _ => Normal tt;
     Mysql.null_pool := PlainError "Cannot read properties of null" |}.

(** ** The HTTP forwarder *)

(** The forwarder evaluated on a request whose body, if any, was read:
    the body is awaited, [fetch] is called once, and the response is
    filled from its answer or from the [catch]. *)
Lemma forward_run {B : Type} (rt : Runtime B) (env : Env) (ctx : Context B)
    (b : option B) (s : St B) :
  awaited_body (request ctx) = Normal b ->
  forward rt env ctx s =
  let calls := ((if hasBody (request ctx) then [EAwaitBody] else [])
                ++ [EFetch (http_url env (request ctx)) (init_of (request ctx) b)])%list in
  match fetch rt (http_url env (request ctx)) (init_of (request ctx) b) with
  | Normal res =>
      (Normal tt,
       {| response := {| out_status := Some (res_status res);
                         out_headers := res_headers res;
                         out_body := match res_body res with
                                     | Some st => BodyStream st
                                     | None => out_body (response s)
                                     end |};
          respond := respond s;
          trace := trace s ++ calls |})
  | Throw e =>
      (Normal tt,
       {| response := {| out_status := Some 502%Z;
                         out_headers := out_headers (response s);
                         out_body := BodyText "Bad Gateway" |};
          respond := respond s;
          trace := trace s ++ calls ++ [ELog (ProxyError e)] |})
  end.
Proof.
  unfold awaited_body, forward, http_url, init_of.
  destruct (hasBody (request ctx)) eqn:Hb.
  - destruct (body_value (request ctx)) as [v | e] eqn:Hv; intros H;
      inversion H; subst b; clear H.
    unfold try_catch, bind, call, ret. cbn [trace response respond].
    try rewrite Hv.
    match goal with |- context [fetch rt ?u ?i] => destruct (fetch rt u i) as [res | e] end.
    + destruct (res_body res); cbn; rewrite <- !app_assoc; reflexivity.
    + cbn. rewrite <- !app_assoc. reflexivity.
  - intros H; inversion H; subst b; clear H.
    unfold try_catch, bind, call, ret. cbn [trace response respond].
    match goal with |- context [fetch rt ?u ?i] => destruct (fetch rt u i) as [res | e] end.
    + destruct (res_body res); cbn; reflexivity.
    + cbn. rewrite <- !app_assoc. reflexivity.
Qed.

(** When the body cannot be read, [fetch] is not reached and the
    [catch] answers. *)
Lemma forward_body_unreadable {B : Type} (rt : Runtime B) (env : Env)
    (ctx : Context B) (e : JsError) (s : St B) :
  awaited_body (request ctx) = Throw e ->
  forward rt env ctx s =
  (Normal tt,
   {| response := {| out_status := Some 502%Z;
                     out_headers := out_headers (response s);
                     out_body := BodyText "Bad Gateway" |};
      respond := respond s;
      trace := trace s ++ [EAwaitBody; ELog (ProxyError e)] |}).
Proof.
  unfold awaited_body, forward.
  destruct (hasBody (request ctx)); [| discriminate].
  destruct (body_value (request ctx)) as [v | e'] eqn:Hv; [discriminate |].
  intros H; inversion H; subst e'; clear H.
  unfold try_catch, bind, call, ret, emit, set_status, set_body, update_response.
  cbn. try rewrite Hv. cbn. rewrite <- app_assoc. reflexivity.
Qed.

(** The forwarder never throws. *)
Lemma forward_returns {B : Type} (rt : Runtime B) (env : Env)
    (ctx : Context B) (s : St B) :
  fst (forward rt env ctx s) = Normal tt.
Proof.
  destruct (awaited_body (request ctx)) as [b | e] eqn:Hb.
  - rewrite (forward_run rt env ctx b s Hb). cbv zeta.
    destruct (fetch rt _ _); reflexivity.
  - rewrite (forward_body_unreadable rt env ctx e s Hb). reflexivity.
Qed.

(** A request outside the API prefix that is not an upgrade goes
    through the chain as the forwarder leaves it, between the two log
    entries of the request logger. *)
Lemma server_forwards {B : Type} (rt : Runtime B) (env : Env) (router : M B unit)
    (ctx : Context B) (s : St B) :
  startsWith (pathname (request ctx)) (PREFIX env) = false ->
  is_websocket_upgrade (headers (request ctx)) = false ->
  let m := method (request ctx) in
  let p := pathname (request ctx) in
  let s1 := snd (forward rt env ctx
                   {| response := response s; respond := respond s;
                      trace := trace s ++ [ELog (RequestStart m p)] |}) in
  server rt env router ctx s =
  (Normal tt,
   {| response := response s1; respond := respond s1;
      trace := trace s1 ++ [ELog (RequestDone m p (out_status (response s1)))] |}).
Proof.
  intros Hp Hw. cbv zeta.
  unfold server, loggerMiddleware, errorMiddleware, dispatch, frontendMiddleware.
  rewrite Hp, Hw.
  unfold bind, try_catch, emit, get_status. cbn [trace response respond].
  pose proof (forward_returns rt env ctx
                {| response := response s; respond := respond s;
                   trace := trace s ++ [ELog (RequestStart (method (request ctx))
                                                (pathname (request ctx)))] |}) as Hr.
  destruct (forward rt env ctx _) as [c s1]. cbn in Hr. subst c. reflexivity.
Qed.










(** The address of the dev server in each of the three configurations
    of [config/env.ts] is a plain one. *)
Example configured_addresses_are_plain :
  plain_address (Config.WEB_URL Config.development) = true
  /\ plain_address (Config.WEB_URL Config.test) = true
  /\ plain_address (Config.WEB_URL Config.production) = true.
Proof. repeat split; reflexivity. Qed.

(** The proxy itself leaves the header object alone: the options it
    hands to [fetch] for [asset_request] still hold the host entry of
    the inbound request, the address of the proxy. *)
Example host_entry_is_handed_over :
  exists u i,
    fetch_calls (trace (snd (frontendMiddleware live_runtime dev_env asset_ctx fresh)))
      = [(u, i)]
    /\ headers_get "host" (init_headers i) = Some "127.0.0.1:8000"
    /\ request_host u = "localhost:5173".
Proof.
  eexists; eexists. split; [reflexivity |]. split; reflexivity.
Qed.

(** C2. For every proxied HTTP request, when [fetch] cannot reach the
    dev server the proxy itself returns normally with status 502 and
    the fixed, non-empty text [Bad Gateway], and so does the whole
    chain: nothing is thrown to the error middleware or beyond. *)
Theorem unreachable_upstream_is_bad_gateway {B : Type} (rt : Runtime B) (env : Env)
    (router : M B unit) (ctx : Context B) :
  startsWith (pathname (request ctx)) (PREFIX env) = false ->
  is_websocket_upgrade (headers (request ctx)) = false ->
  (forall u i, exists e, fetch rt u i = Throw e) ->
  fst (frontendMiddleware rt env ctx fresh) = Normal tt
  /\ fst (server rt env router ctx fresh) = Normal tt
  /\ out_status (response (snd (server rt env router ctx fresh))) = Some 502%Z
  /\ out_body (response (snd (server rt env router ctx fresh))) = BodyText "Bad Gateway"
  /\ "Bad Gateway" <> ""
  /\ respond (snd (server rt env router ctx fresh)) = true.
Proof.
  intros Hp Hw Hdown.
  split.
  { unfold frontendMiddleware. rewrite Hw. apply forward_returns. }
  rewrite (server_forwards rt env router ctx fresh Hp Hw). cbv zeta.
  cbn [fst snd response respond out_status out_body].
  split; [reflexivity |].
  destruct (awaited_body (request ctx)) as [b | e] eqn:Hb.
  - rewrite (forward_run rt env ctx b _ Hb). cbv zeta.
    destruct (Hdown (http_url env (request ctx)) (init_of (request ctx) b)) as [e He].
    rewrite He. cbn. repeat split; try reflexivity. discriminate.
  - rewrite (forward_body_unreadable rt env ctx e _ Hb).
    cbn. repeat split; try reflexivity. discriminate.
Qed.

Lemma unreachable_upstream_is_bad_gateway_witness :
  out_status (response (snd (server dead_runtime dev_env (ret tt) asset_ctx fresh)))
    = Some 502%Z
  /\ out_body (response (snd (server dead_runtime dev_env (ret tt) asset_ctx fresh)))
    = BodyText "Bad Gateway".
Proof.
  pose proof (unreachable_upstream_is_bad_gateway dead_runtime dev_env (ret tt) asset_ctx
                eq_refl eq_refl
                (fun _ _ => ex_intro _ (PlainError "connection refused") eq_refl)) as H.
  exact (conj (proj1 (proj2 (proj2 H))) (proj1 (proj2 (proj2 (proj2 H))))).
Defined.

(** C5. For every proxied HTTP request that the dev server answers, the
    response the chain leaves carries the status of the answer, a copy
    of its headers, and its body stream itself, every chunk in place;
    an answer with no body leaves the body unset. *)
Theorem upstream_reply_is_mirrored {B : Type} (rt : Runtime B) (env : Env)
    (router : M B unit) (ctx : Context B) (b : option B) (res : FetchResponse) :
  startsWith (pathname (request ctx)) (PREFIX env) = false ->
  is_websocket_upgrade (headers (request ctx)) = false ->
  awaited_body (request ctx) = Normal b ->
  fetch rt (http_url env (request ctx)) (init_of (request ctx) b) = Normal res ->
  fst (server rt env router ctx fresh) = Normal tt
  /\ out_status (response (snd (server rt env router ctx fresh))) = Some (res_status res)
  /\ out_headers (response (snd (server rt env router ctx fresh))) = res_headers res
  /\ out_body (response (snd (server rt env router ctx fresh))) =
       match res_body res with
       | Some chunks => BodyStream chunks
       | None => BodyUnset
       end.
Proof.
  intros Hp Hw Hb Hres.
  rewrite (server_forwards rt env router ctx fresh Hp Hw). cbv zeta.
  rewrite (forward_run rt env ctx b _ Hb). cbv zeta. rewrite Hres.
  cbn. repeat split; reflexivity.
Qed.

Lemma upstream_reply_is_mirrored_witness :
  out_status (response (snd (server live_runtime dev_env (ret tt) asset_ctx fresh)))
    = Some 200%Z
  /\ out_headers (response (snd (server live_runtime dev_env (ret tt) asset_ctx fresh)))
    = [("content-type", "text/javascript")]
  /\ out_body (response (snd (server live_runtime dev_env (ret tt) asset_ctx fresh)))
    = BodyStream [list_byte_of_string "console.log(1)"].
Proof.
  exact (proj2 (upstream_reply_is_mirrored live_runtime dev_env (ret tt) asset_ctx None
                  asset_reply eq_refl eq_refl eq_refl eq_refl)).
Defined.

(** A body of several chunks comes back chunk for chunk. *)
Lemma upstream_reply_chunks (chunks : Stream) :
  out_body (response (snd (server
      {| fetch := fun _ _ => Normal {| res_status := 200; res_headers := [];
                                       res_body := Some chunks |};
         new_WebSocket := fun _ => Normal tt;
         STATUS_TEXT := oak_status_text |}
      dev_env (ret tt) asset_ctx fresh)))
  = BodyStream chunks.
Proof. reflexivity. Qed.

(** ** The WebSocket branch of the middleware *)

(** The upgrade request that cannot be upgraded throws before anything
    else happens. *)
Lemma tunnel_not_upgradable {B : Type} (rt : Runtime B) (env : Env)
    (ctx : Context B) (s : St B) :
  is_websocket_upgrade (headers (request ctx)) = true ->
  isUpgradable ctx = false ->
  frontendMiddleware rt env ctx s = (Throw (HttpError 501 (STATUS_TEXT rt 501)), s).
Proof.
  intros Hw Hu. unfold frontendMiddleware, tunnel. rewrite Hw, Hu. reflexivity.
Qed.

(** The chain on such a request: the error middleware answers. *)
Lemma server_not_upgradable {B : Type} (rt : Runtime B) (env : Env)
    (router : M B unit) (ctx : Context B) :
  startsWith (pathname (request ctx)) (PREFIX env) = false ->
  is_websocket_upgrade (headers (request ctx)) = true ->
  isUpgradable ctx = false ->
  server rt env router ctx fresh =
  (Normal tt,
   {| response := {| out_status := Some 501%Z;
                     out_headers := [];
                     out_body := BodyJson (errorBody (STATUS_TEXT rt 501)) |};
      respond := true;
      trace := [ELog (RequestStart (method (request ctx)) (pathname (request ctx)));
                ELog (ServerError (STATUS_TEXT rt 501));
                ELog (RequestDone (method (request ctx)) (pathname (request ctx))
                        (Some 501%Z))] |}).
Proof.
  intros Hp Hw Hu.
  unfold server, loggerMiddleware, errorMiddleware, dispatch.
  rewrite Hp.
  unfold bind, try_catch, emit. cbn [trace response respond fresh].
  rewrite (tunnel_not_upgradable rt env ctx _ Hw Hu).
  reflexivity.
Qed.

(** C3. For every WebSocket upgrade request outside the API prefix
    whose transport cannot be upgraded, the chain answers with status
    501, whatever the request, and neither upgrades the connection nor
    calls the [WebSocket] constructor nor [fetch]. *)
Theorem upgrade_unsupported_is_501 {B : Type} (rt : Runtime B) (env : Env)
    (router : M B unit) (ctx : Context B) :
  startsWith (pathname (request ctx)) (PREFIX env) = false ->
  is_websocket_upgrade (headers (request ctx)) = true ->
  isUpgradable ctx = false ->
  fst (server rt env router ctx fresh) = Normal tt
  /\ out_status (response (snd (server rt env router ctx fresh))) = Some 501%Z
  /\ socket_calls (trace (snd (server rt env router ctx fresh))) = []
  /\ fetch_calls (trace (snd (server rt env router ctx fresh))) = []
  /\ ~ In EUpgrade (trace (snd (server rt env router ctx fresh))).
Proof.
  intros Hp Hw Hu.
  rewrite (server_not_upgradable rt env router ctx Hp Hw Hu).
  cbn. repeat split; try reflexivity.
  intros [H | [H | [H | []]]]; discriminate.
Qed.

Lemma upgrade_unsupported_is_501_witness :
  out_status (response (snd (server live_runtime dev_env (ret tt) (hmr_ctx false) fresh)))
    = Some 501%Z
  /\ socket_calls (trace (snd (server live_runtime dev_env (ret tt) (hmr_ctx false) fresh)))
    = [].
Proof.
  pose proof (upgrade_unsupported_is_501 live_runtime dev_env (ret tt) (hmr_ctx false)
                eq_refl eq_refl eq_refl) as H.
  exact (conj (proj1 (proj2 H)) (proj1 (proj2 (proj2 H)))).
Defined.

(** C10. The 501 of such a request is the [HttpError] that [ctx.throw]
    raises in the proxy; the error middleware catches it, keeps 501 as
    the status and sets the body to the envelope of [errorBody] with the
    message of the error: its [code] is 500, its [data] null, its
    [status] the text [error]. The body is neither unset nor a text. *)
Theorem upgrade_unsupported_envelope {B : Type} (rt : Runtime B) (env : Env)
    (router : M B unit) (ctx : Context B) :
  startsWith (pathname (request ctx)) (PREFIX env) = false ->
  is_websocket_upgrade (headers (request ctx)) = true ->
  isUpgradable ctx = false ->
  frontendMiddleware rt env ctx fresh
    = (Throw (HttpError 501 (STATUS_TEXT rt 501)), fresh)
  /\ out_status (response (snd (server rt env router ctx fresh))) = Some 501%Z
  /\ out_body (response (snd (server rt env router ctx fresh))) =
       BodyJson {| code := 500; data := None; status := "error";
                   message := error_message (HttpError 501 (STATUS_TEXT rt 501)) |}
  /\ code (errorBody (STATUS_TEXT rt 501)) <> 501%Z
  /\ out_body (response (snd (server rt env router ctx fresh))) <> BodyUnset
  /\ forall t, out_body (response (snd (server rt env router ctx fresh))) <> BodyText t.
Proof.
  intros Hp Hw Hu.
  split; [apply tunnel_not_upgradable; assumption |].
  rewrite (server_not_upgradable rt env router ctx Hp Hw Hu).
  cbn. repeat split; try reflexivity; discriminate.
Qed.

Lemma upgrade_unsupported_envelope_witness :
  out_body (response (snd (server live_runtime dev_env (ret tt) (hmr_ctx false) fresh))) =
    BodyJson {| code := 500; data := None; status := "error";
                message := "Not Implemented" |}.
Proof.
  exact (proj1 (proj2 (proj2 (upgrade_unsupported_envelope live_runtime dev_env (ret tt)
                                (hmr_ctx false) eq_refl eq_refl eq_refl)))).
Defined.

(** A request that can be upgraded, with a constructor that returns:
    the connection is upgraded, then one socket is opened to the dev
    server at the path and query of the request, then the six handlers
    are assigned, and the downstream socket becomes the body. *)
Lemma tunnel_established {B : Type} (rt : Runtime B) (env : Env) (ctx : Context B) :
  is_websocket_upgrade (headers (request ctx)) = true ->
  isUpgradable ctx = true ->
  upgrade_result ctx = Normal tt ->
  new_WebSocket rt (ws_url env (request ctx)) = Normal tt ->
  frontendMiddleware rt env ctx fresh =
  (Normal tt,
   {| response := {| out_status := None; out_headers := []; out_body := BodySocket |};
      respond := true;
      trace := [EUpgrade; ENewWebSocket (ws_url env (request ctx));
                ESetHandler Upstream onmessage; ESetHandler Upstream onclose;
                ESetHandler Upstream onerror; ESetHandler Downstream onmessage;
                ESetHandler Downstream onclose; ESetHandler Downstream onerror] |}).
Proof.
  intros Hw Hu Hup Hnew.
  unfold frontendMiddleware, tunnel, ws_url in *. rewrite Hw, Hu, Hup.
  unfold bind, try_catch, call, ret. cbn [negb trace response respond fresh].
  rewrite Hnew. reflexivity.
Qed.

(** With a constructor that throws, the [catch] assigns status 500 and
    the middleware returns: the upgraded socket gets no handler and no
    call at all. *)
Lemma tunnel_constructor_throws {B : Type} (rt : Runtime B) (env : Env)
    (ctx : Context B) (e : JsError) :
  is_websocket_upgrade (headers (request ctx)) = true ->
  isUpgradable ctx = true ->
  upgrade_result ctx = Normal tt ->
  new_WebSocket rt (ws_url env (request ctx)) = Throw e ->
  frontendMiddleware rt env ctx fresh =
  (Normal tt,
   {| response := {| out_status := Some 500%Z; out_headers := []; out_body := BodyUnset |};
      respond := true;
      trace := [EUpgrade; ENewWebSocket (ws_url env (request ctx))] |}).
Proof.
  intros Hw Hu Hup Hnew.
  unfold frontendMiddleware, tunnel, ws_url in *. rewrite Hw, Hu, Hup.
  unfold bind, try_catch, call, ret. cbn [negb trace response respond fresh].
  rewrite Hnew. reflexivity.
Qed.

(** C7, at the failing input. The dev-server address is [bad_env]'s and
    the constructor throws: the connection of the client has been
    upgraded, the status is 500, and the trace ends with the
    constructor call. No handler was assigned to the socket of the
    client and nothing closed it. *)
Theorem constructor_failure_leaves_client_socket :
  frontendMiddleware broken_runtime bad_env (hmr_ctx true) fresh =
    (Normal tt,
     {| response := {| out_status := Some 500%Z; out_headers := [];
                       out_body := BodyUnset |};
        respond := true;
        trace := [EUpgrade; ENewWebSocket "ws://dev server:5173/ws?token=abc"] |}).
Proof. reflexivity. Qed.

(** ** The relay *)

Module RelayFacts.
Import Relay.

Lemma other_involutive (s : Side) : other (other s) = s.
Proof. destruct s; reflexivity. Qed.

Ltac session_cases r s :=
  destruct r as [d u td tu rf cl un]; destruct s; destruct d; destruct u;
  cbn in *; try congruence; try discriminate; auto.

(** C6. In every session, when a side that is not yet closed ends or
    fails, that side is closed and the handlers have called [close] on
    the other side, which is closing or closed at once; when the
    runtime completes that one closing handshake both sockets are
    closed and none is left closing. After a failure of the client
    side the call comes from the close event that follows the error
    event. *)
Theorem either_end_closing_closes_both (r : Session) (s : Side) (i : Input) :
  i = Finished s \/ i = Failed s ->
  ready s r <> CLOSED ->
  ready s (deliver r i) = CLOSED
  /\ (ready (other s) (deliver r i) = CLOSING \/ ready (other s) (deliver r i) = CLOSED)
  /\ down (settle 1 (deliver r i)) = CLOSED
  /\ up (settle 1 (deliver r i)) = CLOSED
  /\ pending_close (settle 1 (deliver r i)) = None.
Proof.
  intros [-> | ->] Hs; session_cases r s; repeat split; auto.
Qed.

Lemma either_end_closing_closes_both_witness :
  down (settle 1 (deliver both_open (Failed Downstream))) = CLOSED
  /\ up (settle 1 (deliver both_open (Failed Downstream))) = CLOSED.
Proof.
  pose proof (either_end_closing_closes_both both_open Downstream (Failed Downstream)
                (or_intror eq_refl)
                (fun H : ready Downstream both_open = CLOSED =>
                   match H in (_ = q) return (match q with CLOSED => False | _ => True end)
                   with eq_refl => I end)) as H.
  exact (conj (proj1 (proj2 (proj2 H))) (proj1 (proj2 (proj2 (proj2 H))))).
Defined.

(** The dev server refuses the connection: the socket to it fails
    while connecting, its error handler closes the socket of the
    client, and the session ends closed. *)
Example refused_connection_closes_client :
  down (deliver established (Failed Upstream)) = CLOSING
  /\ closing (deliver established (Failed Upstream)) = [Downstream]
  /\ down (settle 1 (deliver established (Failed Upstream))) = CLOSED
  /\ up (settle 1 (deliver established (Failed Upstream))) = CLOSED.
Proof. repeat split; reflexivity. Qed.

(** The same for an error event dispatched on an open socket with no
    close event behind it, both sockets being open: the handler of
    either side starts a closing handshake, and two completed
    handshakes close the session. *)
Lemma lone_error_event_closes_both (r : Session) (s : Side) :
  down r = OPEN -> up r = OPEN ->
  down (settle 2 (dispatch_event s ErrorEvent r)) = CLOSED
  /\ up (settle 2 (dispatch_event s ErrorEvent r)) = CLOSED.
Proof.
  intros Hd Hu; session_cases r s.
Qed.

(** One input adds to the wire towards a side at most the message it
    brings to the other side, and only if the wire's side is open. *)
Lemma deliver_wire (r : Session) (i : Input) (s : Side) :
  wire (other s) (deliver r i) =
  (wire (other s) r ++
   match i with
   | Arrived s' d =>
       if side_eqb s' s && enabled i r && is_open (ready (other s) r)
       then [d] else []
   | _ => []
   end)%list.
Proof.
  destruct i as [s' | s' m | s' | s']; destruct r as [d u td tu rf cl un];
    destruct s; destruct s'; destruct d; destruct u; cbn;
    rewrite ?app_nil_r; reflexivity.
Qed.

(** Over a whole run the wire towards a side grows by the relayed
    messages of the other side. *)
Lemma wire_run (inputs : list Input) (r : Session) (s : Side) :
  wire (other s) (run inputs r) = (wire (other s) r ++ relayed s inputs r)%list.
Proof.
  revert r. induction inputs as [| i rest IH]; intros r.
  - cbn. rewrite app_nil_r. reflexivity.
  - cbn [run fold_left relayed]. fold (run rest (deliver r i)).
    rewrite IH, deliver_wire, <- app_assoc. reflexivity.
Qed.

(** In every session, for every sequence of inputs and for each
    direction on its own, the messages transmitted towards a side are
    those already transmitted followed by exactly the messages heard on
    the other side while the receiving socket was open, in the order of
    arrival; from the start of a session they are exactly those
    messages. *)
Lemma relay_is_fifo_while_peer_open (inputs : list Input) (r : Session) (s : Side) :
  wire (other s) (run inputs r) = (wire (other s) r ++ relayed s inputs r)%list
  /\ wire (other s) (run inputs established) = relayed s inputs established.
Proof.
  split.
  - apply wire_run.
  - rewrite wire_run. destruct s; reflexivity.
Qed.

(** A message heard on a side while the socket of the other side is
    still connecting: the handler's [send] throws, the exception leaves
    the handler, and nothing is transmitted. *)
Lemma message_to_connecting_socket_throws (r : Session) (s : Side) (m : Data) :
  enabled (Arrived s m) r = true ->
  ready (other s) r = CONNECTING ->
  uncaught (deliver r (Arrived s m))
  = (uncaught r ++ [InvalidStateError (other s) m])%list
  /\ wire (other s) (deliver r (Arrived s m)) = wire (other s) r
  /\ ready (other s) (deliver r (Arrived s m)) = CONNECTING.
Proof.
  destruct r as [d u td tu rf cl un]; destruct s; destruct d; destruct u;
    cbn; intros He Hc; try discriminate; repeat split; reflexivity.
Qed.

(** C8. In [early_ping] the client's message is heard before the client
    leaves, while the socket to the dev server is still connecting:
    [wsClient.send] throws out of the message handler, and the message
    never reaches the dev server, not even once that socket is open. *)
Theorem message_before_upstream_opens_is_lost :
  received Downstream early_ping established = ["ping"]
  /\ uncaught (run early_ping established) = [InvalidStateError Upstream "ping"]
  /\ to_up (run early_ping established) = []
  /\ up (run [Opened Downstream; Arrived Downstream "ping"; Opened Upstream] established)
     = OPEN
  /\ to_up (run [Opened Downstream; Arrived Downstream "ping"; Opened Upstream] established)
     = []
  /\ to_up (run early_ping established) <> received Downstream early_ping established.
Proof. repeat split; try reflexivity. discriminate. Qed.

Lemma arrived_keeps_ready (r : Session) (s' : Side) (m : Data) (s : Side) :
  ready s (deliver r (Arrived s' m)) = ready s r.
Proof.
  destruct r as [d u td tu rf cl un]; destruct s; destruct s'; destruct d; destruct u;
    reflexivity.
Qed.

(** While both sockets are open every message heard is relayed. *)
Lemma relayed_all_while_open (inputs : list Input) (r : Session) (s : Side) :
  only_messages inputs -> down r = OPEN -> up r = OPEN ->
  relayed s inputs r = messages_for s inputs
  /\ received s inputs r = messages_for s inputs.
Proof.
  intros Hall. revert r. induction Hall as [| i rest Hi Hrest IH]; intros r Hd Hu.
  - split; reflexivity.
  - destruct i as [s' | s' m | s' | s']; try contradiction.
    cbn [relayed received messages_for flat_map].
    assert (Hd' : down (deliver r (Arrived s' m)) = OPEN).
    { rewrite <- Hd. exact (arrived_keeps_ready r s' m Downstream). }
    assert (Hu' : up (deliver r (Arrived s' m)) = OPEN).
    { rewrite <- Hu. exact (arrived_keeps_ready r s' m Upstream). }
    destruct (IH _ Hd' Hu') as [IH1 IH2]. rewrite IH1, IH2.
    destruct r as [d u td tu rf cl un]; cbn in Hd, Hu; subst d u.
    destruct s; destruct s'; split; reflexivity.
Qed.

(** Hence, with both sockets open and only messages arriving, each
    direction delivers all its messages in order, whatever the
    interleaving with the other direction. *)
Lemma relay_fifo_both_open (inputs : list Input) (r : Session) (s : Side) :
  only_messages inputs -> down r = OPEN -> up r = OPEN ->
  wire (other s) (run inputs r) = (wire (other s) r ++ messages_for s inputs)%list.
Proof.
  intros Hall Hd Hu. rewrite wire_run.
  destruct (relayed_all_while_open inputs r s Hall Hd Hu) as [-> _]. reflexivity.
Qed.

(** The hot-reload scenario: the ping goes up, the pong comes down, and
    when the client leaves both sockets end closed. *)
Example ping_pong_session :
  to_up (settle 1 (run ping_pong established)) = ["ping"]
  /\ to_down (settle 1 (run ping_pong established)) = ["pong"]
  /\ down (settle 1 (run ping_pong established)) = CLOSED
  /\ up (settle 1 (run ping_pong established)) = CLOSED.
Proof. repeat split; reflexivity. Qed.

(** A closed socket stays closed. *)
Lemma closed_stays_closed (r : Session) (i : Input) (s : Side) :
  ready s r = CLOSED -> ready s (deliver r i) = CLOSED.
Proof.
  destruct i as [s' | s' m | s' | s']; destruct r as [d u td tu rf cl un];
    destruct s; destruct s'; destruct d; destruct u; cbn; congruence.
Qed.

End RelayFacts.

(** * More of the code *)

(** ** The chain of [server] *)

Lemma startsWith_append (p rest : string) : startsWith (p ++ rest) p = true.
Proof.
  unfold startsWith. induction p as [| c p IH]; cbn.
  - destruct rest; reflexivity.
  - destruct (ascii_dec c c) as [_ | Hne]; [exact IH | contradiction].
Qed.

(** Whatever the routes or the proxy do, the chain completes normally:
    an exception of a route, of the proxy or of [ctx.upgrade()] is
    caught by the error middleware and never leaves [server]. *)
Theorem server_never_throws {B : Type} (rt : Runtime B) (env : Env)
    (router : M B unit) (ctx : Context B) (s : St B) :
  fst (server rt env router ctx s) = Normal tt.
Proof.
  unfold server, loggerMiddleware, errorMiddleware.
  unfold bind, try_catch, emit, get_status, set_status, set_body, set_respond,
    update_response.
  cbn [trace response respond].
  destruct (dispatch rt env ctx router _) as [[[] | e] s1]; reflexivity.
Qed.

(** The dispatcher is exclusive. A request whose path begins with the
    API prefix, whatever follows the prefix, is answered without the
    runtime of the proxy: no [fetch], no socket. Any other request is
    answered without the router. *)
Theorem dispatch_is_exclusive {B : Type} (rt rt' : Runtime B) (env : Env)
    (router router' : M B unit) (ctx : Context B) (s : St B) :
  (forall rest, pathname (request ctx) = PREFIX env ++ rest ->
     server rt env router ctx s = server rt' env router ctx s)
  /\ (startsWith (pathname (request ctx)) (PREFIX env) = false ->
       server rt env router ctx s = server rt env router' ctx s).
Proof.
  split.
  - intros rest Hp. unfold server, dispatch.
    rewrite Hp, startsWith_append. reflexivity.
  - intros Hp. unfold server, dispatch. rewrite Hp. reflexivity.
Qed.

(** A route that throws is answered by the error middleware: the status
    of an [HttpError], 500 for anything else; the envelope of
    [errorBody] with the message of the error, or the fixed text when
    the thrown value is not an [Error]; the headers the route had set
    are kept. *)
Theorem route_error_is_enveloped {B : Type} (rt : Runtime B) (env : Env)
    (router : M B unit) (ctx : Context B) (s s1 : St B) (err : JsError) :
  startsWith (pathname (request ctx)) (PREFIX env) = true ->
  router {| response := response s; respond := respond s;
            trace := trace s ++ [ELog (RequestStart (method (request ctx))
                                         (pathname (request ctx)))] |}
    = (Throw err, s1) ->
  let st := match err with HttpError z _ => z | _ => 500%Z end in
  server rt env router ctx s =
  (Normal tt,
   {| response :=
        {| out_status := Some st;
           out_headers := out_headers (response s1);
           out_body := BodyJson (errorBody (match err with
                                            | NonError _ => "服务器内部错误"
                                            | _ => error_message err
                                            end)) |};
      respond := true;
      trace := trace s1
               ++ [ELog (ServerError (error_message err));
                   ELog (RequestDone (method (request ctx)) (pathname (request ctx))
                           (Some st))] |}).
Proof.
  intros Hp Hr. cbv zeta.
  unfold server, loggerMiddleware, errorMiddleware, dispatch. rewrite Hp.
  unfold bind, try_catch, emit, get_status, set_status, set_body, set_respond,
    update_response.
  cbn [trace response respond]. rewrite Hr.
  destruct err; cbn; rewrite <- app_assoc; reflexivity.
Qed.

Lemma route_error_is_enveloped_witness :
  out_status (response (snd (server live_runtime dev_env
                               (throw (NonError "42")) api_ctx fresh)))
    = Some 500%Z
  /\ out_body (response (snd (server live_runtime dev_env
                               (throw (NonError "42")) api_ctx fresh)))
    = BodyJson (errorBody "服务器内部错误").
Proof.
  pose proof (route_error_is_enveloped live_runtime dev_env (throw (NonError "42"))
                api_ctx fresh _ (NonError "42") eq_refl eq_refl) as H.
  cbv zeta in H. rewrite H. split; reflexivity.
Defined.

(** The tunnel evaluated case by case. *)
Lemma tunnel_cases {B : Type} (rt : Runtime B) (env : Env) (ctx : Context B) (s : St B) :
  exists (c : Completion unit) (r : Response) (t : list (Effect B)),
    tunnel rt env ctx s = (c, {| response := r; respond := respond s;
                                 trace := trace s ++ t |})
    /\ fetch_calls t = []
    /\ (length (socket_calls t) <= 1)%nat.
Proof.
  unfold tunnel, bind, try_catch, call, ret, ctx_throw, throw, install_handlers, emit,
    set_body, set_status, update_response.
  cbn [trace response respond].
  destruct (isUpgradable ctx); cbn [negb].
  - destruct (upgrade_result ctx) as [[] | e].
    + destruct (new_WebSocket rt _) as [[] | e];
        cbv [bind emit]; cbn [trace response respond];
        rewrite <- ?app_assoc; cbn [app];
        eexists; eexists; eexists; (split; [reflexivity |]);
        (split; [reflexivity | cbn; lia]).
    + rewrite <- ?app_assoc. eexists; eexists; eexists. split; [reflexivity |].
      split; [reflexivity | cbn; lia].
  - exists (Throw (HttpError 501 (STATUS_TEXT rt 501))), (response s), [].
    rewrite app_nil_r. destruct s; cbn. repeat split; lia.
Qed.

(** One request, at most one call to the dev server: the proxy either
    calls [fetch] once, or the [WebSocket] constructor once, or
    neither, and never both. *)
Theorem at_most_one_outbound_call {B : Type} (rt : Runtime B) (env : Env)
    (ctx : Context B) :
  (length (fetch_calls (trace (snd (frontendMiddleware rt env ctx fresh))))
   + length (socket_calls (trace (snd (frontendMiddleware rt env ctx fresh)))) <= 1)%nat.
Proof.
  unfold frontendMiddleware.
  destruct (is_websocket_upgrade (headers (request ctx))).
  - destruct (tunnel_cases rt env ctx fresh) as (c & r & t & Heq & Hf & Hs).
    rewrite Heq. cbn [snd trace fresh app]. rewrite Hf. cbn. exact Hs.
  - destruct (awaited_body (request ctx)) as [b | e] eqn:Hb.
    + rewrite (forward_run rt env ctx b fresh Hb). cbv zeta.
      destruct (fetch rt _ _); destruct (hasBody (request ctx)); cbn; lia.
    + rewrite (forward_body_unreadable rt env ctx e fresh Hb). cbn. lia.
Qed.

(** When [ctx.upgrade()] throws, the exception leaves the proxy as it
    is (the call stands before the [try]): no socket to the dev server
    is constructed, and in the chain the error middleware answers, not
    the [catch] of the proxy. *)
Theorem upgrade_exception_escapes_proxy {B : Type} (rt : Runtime B) (env : Env)
    (router : M B unit) (ctx : Context B) (e : JsError) :
  startsWith (pathname (request ctx)) (PREFIX env) = false ->
  is_websocket_upgrade (headers (request ctx)) = true ->
  isUpgradable ctx = true ->
  upgrade_result ctx = Throw e ->
  frontendMiddleware rt env ctx fresh
    = (Throw e, {| response := response (fresh (B := B)); respond := true;
                   trace := [EUpgrade] |})
  /\ socket_calls (trace (snd (server rt env router ctx fresh))) = []
  /\ out_status (response (snd (server rt env router ctx fresh)))
     = Some (match e with HttpError z _ => z | _ => 500%Z end)
  /\ exists msg, out_body (response (snd (server rt env router ctx fresh)))
                 = BodyJson (errorBody msg).
Proof.
  intros Hp Hw Hu He.
  assert (Hfm : forall s, frontendMiddleware rt env ctx s
                = (Throw e, {| response := response s; respond := respond s;
                               trace := trace s ++ [EUpgrade] |})).
  { intros s. unfold frontendMiddleware, tunnel. rewrite Hw, Hu, He. reflexivity. }
  split; [apply Hfm |].
  unfold server, loggerMiddleware, errorMiddleware, dispatch. rewrite Hp.
  unfold bind, try_catch, emit, get_status, set_status, set_body, set_respond,
    update_response.
  cbn [trace response respond]. rewrite Hfm.
  destruct e; cbn; repeat split; eauto.
Qed.

Lemma upgrade_exception_escapes_proxy_witness :
  out_status (response (snd (server live_runtime dev_env (ret tt)
                               failing_upgrade_ctx fresh))) = Some 500%Z.
Proof.
  exact (proj1 (proj2 (proj2 (upgrade_exception_escapes_proxy live_runtime dev_env
                                (ret tt) failing_upgrade_ctx
                                (PlainError "upgrade failed")
                                eq_refl eq_refl eq_refl eq_refl)))).
Defined.

(** The last thing the chain does is to log the completion, and the
    status it logs is the status the response ends with, also when the
    error middleware has set it. *)
Theorem completion_log_has_final_status {B : Type} (rt : Runtime B) (env : Env)
    (router : M B unit) (ctx : Context B) (s : St B) :
  exists t,
    trace (snd (server rt env router ctx s))
    = (t ++ [ELog (RequestDone (method (request ctx)) (pathname (request ctx))
                     (out_status (response (snd (server rt env router ctx s)))))])%list.
Proof.
  unfold server, loggerMiddleware, errorMiddleware.
  unfold bind, try_catch, emit, get_status, set_status, set_body, set_respond,
    update_response.
  cbn [trace response respond].
  destruct (dispatch rt env ctx router _) as [[[] | e] s1]; cbn; eauto.
Qed.

(** A request body that cannot be read: the proxy does not call the
    dev server at all and answers 502 with the text of the bad-gateway
    case; the chain completes normally. *)
Theorem unreadable_body_is_bad_gateway {B : Type} (rt : Runtime B) (env : Env)
    (router : M B unit) (ctx : Context B) (e : JsError) :
  startsWith (pathname (request ctx)) (PREFIX env) = false ->
  is_websocket_upgrade (headers (request ctx)) = false ->
  awaited_body (request ctx) = Throw e ->
  fst (server rt env router ctx fresh) = Normal tt
  /\ fetch_calls (trace (snd (server rt env router ctx fresh))) = []
  /\ out_status (response (snd (server rt env router ctx fresh))) = Some 502%Z
  /\ out_body (response (snd (server rt env router ctx fresh))) = BodyText "Bad Gateway".
Proof.
  intros Hp Hw Hb.
  rewrite (server_forwards rt env router ctx fresh Hp Hw). cbv zeta.
  rewrite (forward_body_unreadable rt env ctx e _ Hb).
  cbn. repeat split; reflexivity.
Qed.

Lemma unreadable_body_is_bad_gateway_witness :
  fetch_calls (trace (snd (server live_runtime dev_env (ret tt) upload_ctx fresh))) = []
  /\ out_status (response (snd (server live_runtime dev_env (ret tt) upload_ctx fresh)))
     = Some 502%Z.
Proof.
  pose proof (unreadable_body_is_bad_gateway live_runtime dev_env (ret tt) upload_ctx
                (PlainError "Unexpected end of JSON input") eq_refl eq_refl eq_refl) as H.
  exact (conj (proj1 (proj2 H)) (proj1 (proj2 (proj2 H)))).
Defined.

(** ** More of the relay *)

Module RelayInvariants.
Import Relay.

Lemma no_half_open_deliver (r : Session) (i : Input) :
  no_half_open r -> no_half_open (deliver r i).
Proof.
  intros H s. pose proof (H Downstream) as Hd. pose proof (H Upstream) as Hu.
  destruct i as [s' | s' m | s' | s']; destruct r as [d u td tu rf cl un];
    destruct s; destruct s'; destruct d; destruct u; cbn in *; intros Hc;
    auto; try discriminate;
    try (destruct (Hd eq_refl); discriminate);
    try (destruct (Hu eq_refl); discriminate).
Qed.

(** From the moment the middleware returns, in every run, a closed
    socket never faces a socket that is still connecting or open: the
    close of one end has always called [close] on the other. *)
Theorem closed_side_never_faces_open_side (inputs : list Input) (s : Side) :
  ready s (run inputs established) = CLOSED ->
  ready (other s) (run inputs established) = CLOSING
  \/ ready (other s) (run inputs established) = CLOSED.
Proof.
  assert (H : forall r, no_half_open r -> no_half_open (run inputs r)).
  { induction inputs as [| i rest IH]; intros r Hr; [exact Hr |].
    cbn. apply IH, no_half_open_deliver, Hr. }
  apply (H established). intros s' Hs'. destruct s'; discriminate.
Qed.

Lemma closed_side_never_faces_open_side_witness :
  ready Upstream (run ping_pong established) = CLOSING
  \/ ready Upstream (run ping_pong established) = CLOSED.
Proof.
  exact (closed_side_never_faces_open_side ping_pong Downstream eq_refl).
Defined.

Lemma deliver_accounts (r : Session) (i : Input) (s : Side) :
  (length (wire (other s) (deliver r i)) + length (refused_by (other s) (deliver r i))
   = length (wire (other s) r) + length (refused_by (other s) r)
     + length (match i with
               | Arrived s' d => if side_eqb s' s && enabled i r then [d] else []
               | _ => []
               end))%nat.
Proof.
  unfold refused_by.
  destruct i as [s' | s' m | s' | s']; destruct r as [d u td tu rf cl un];
    destruct s; destruct s'; destruct d; destruct u; cbn;
    rewrite ?filter_app, ?map_app, ?length_app; cbn; lia.
Qed.

(** Every message heard on a side leads to exactly one [send] on the
    other socket, which either transmits it or refuses it: over any
    run, what was transmitted towards a side and what its socket
    refused together count the messages heard on the other side. None
    is duplicated and none disappears unrecorded. *)
Theorem every_message_is_sent_or_refused (inputs : list Input) (r : Session) (s : Side) :
  (length (wire (other s) (run inputs r)) + length (refused_by (other s) (run inputs r))
   = length (wire (other s) r) + length (refused_by (other s) r)
     + length (received s inputs r))%nat.
Proof.
  revert r. induction inputs as [| i rest IH]; intros r.
  - cbn. lia.
  - cbn [run fold_left received]. fold (run rest (deliver r i)).
    rewrite IH, deliver_accounts, length_app. lia.
Qed.

End RelayInvariants.

(** With both sockets open the two directions of [chatter] come out
    complete and in order, each on its own wire. *)
Lemma relay_fifo_both_open_witness :
  Relay.to_up (Relay.run chatter both_open) = ["a"; "b"]
  /\ Relay.to_down (Relay.run chatter both_open) = ["x"; "y"; "z"].
Proof.
  assert (Hm : only_messages chatter) by (repeat constructor).
  split.
  - exact (RelayFacts.relay_fifo_both_open chatter both_open Downstream Hm eq_refl eq_refl).
  - exact (RelayFacts.relay_fifo_both_open chatter both_open Upstream Hm eq_refl eq_refl).
Defined.

(** ** The statements of [utils/mysql.ts] *)

Module MysqlFacts.
Import Mysql.

Section Statements.

Context {V : Type}.

Lemma marks_app (a b : string) : marks (a ++ b) = (marks a + marks b)%nat.
Proof. induction a as [| c a IH]; cbn; [reflexivity | rewrite IH; lia]. Qed.

Lemma marks_concat (sep : string) (l : list string) :
  marks sep = 0%nat -> marks (String.concat sep l) = marks_of l.
Proof.
  intros Hsep. induction l as [| x l IH]; [reflexivity |].
  destruct l as [| y l].
  - cbn. lia.
  - cbn [String.concat marks_of fold_right] in *.
    rewrite !marks_app, Hsep, IH. cbn. lia.
Qed.

Lemma marks_clauses (o : QueryParams (V := V)) :
  marks_of (clauses o) = (marks_of (keys o) + length o)%nat.
Proof.
  unfold clauses, keys, marks_of.
  induction o as [| [k v] o IH]; [reflexivity |].
  cbn [map fold_right fst length]. rewrite marks_app, IH. cbn. lia.
Qed.

Lemma marks_placeholders {A : Type} (l : list A) :
  marks_of (map (fun _ => "?") l) = length l.
Proof.
  unfold marks_of. induction l as [| x l IH]; [reflexivity |].
  cbn [map fold_right length]. rewrite IH. reflexivity.
Qed.

Ltac count_marks :=
  unfold values;
  repeat (rewrite ?marks_app, ?marks_clauses, ?marks_placeholders,
            ?length_app, ?length_map;
          try (rewrite marks_concat by reflexivity));
  cbn [marks Ascii.eqb Bool.eqb length]; try lia.

(** The statement of [findAll] has as many question marks as it has
    parameters, plus those that the table, the fields, the keys of the
    conditions and the ordering bring with them. *)
Lemma findAll_marks (table : string) (conditions : option (QueryParams (V := V)))
    (fields : option (list string)) (orderBy : option string) (limit offset : option Z) :
  marks (fst (findAll_statement table conditions fields orderBy limit offset))
  = (length (snd (findAll_statement table conditions fields orderBy limit offset))
     + marks table
     + marks_of (match fields with Some f => f | None => ["*"] end)
     + marks_of (keys (entries conditions))
     + (if truthy orderBy then marks (match orderBy with Some o => o | None => "" end)
        else 0))%nat.
Proof.
  unfold findAll_statement.
  assert (Hnil : marks_of (keys (@nil (string * V))) = 0%nat) by reflexivity.
  destruct conditions as [c |]; [destruct c as [| kv c] |];
    cbn [length Nat.ltb Nat.leb entries keys map];
    destruct (truthy orderBy); destruct limit; destruct offset;
    cbn [fst snd app]; cbn [keys map] in Hnil; rewrite ?Hnil;
    try change (fst kv :: map fst c) with (keys (kv :: c));
    count_marks.
Qed.

(** [findAll]: when the table, the fields, the keys of the conditions
    and the ordering hold no question mark, the statement has exactly
    one placeholder per parameter. The parameters are the values of the
    conditions, then the limit, then the offset; an offset given
    without a limit adds neither a placeholder nor a parameter. *)
Theorem findAll_placeholders_match_parameters (table : string)
    (conditions : option (QueryParams (V := V))) (fields : option (list string))
    (orderBy : option string) (limit offset : option Z) :
  marks table = 0%nat ->
  marks_of (match fields with Some f => f | None => ["*"] end) = 0%nat ->
  marks_of (keys (entries conditions)) = 0%nat ->
  marks (match orderBy with Some o => o | None => "" end) = 0%nat ->
  marks (fst (findAll_statement table conditions fields orderBy limit offset))
  = length (snd (findAll_statement table conditions fields orderBy limit offset))
  /\ snd (findAll_statement table conditions fields orderBy limit offset)
     = (map PValue (values (entries conditions))
        ++ match limit, offset with
           | Some l, Some o => [PNumber l; PNumber o]
           | Some l, None => [PNumber l]
           | None, _ => []
           end)%list.
Proof.
  intros Ht Hf Hk Ho. split.
  - rewrite findAll_marks, Ht, Hf, Hk, Ho. destruct (truthy orderBy); lia.
  - unfold findAll_statement.
    destruct conditions as [c |]; [destruct c as [| kv c] |];
      cbn [keys map length Nat.ltb Nat.leb entries values];
      destruct (truthy orderBy); destruct limit; destruct offset;
      cbn [fst snd app]; rewrite <- ?app_assoc, ?app_nil_r; reflexivity.
Qed.


(** [insert], [update], [delete]: with a table and keys free of
    question marks, each statement has one placeholder per parameter.
    The parameters of [insert] and [delete] are the values of the
    object in the order of its keys; those of [update] are the values
    of the data followed by the values of the conditions, as the SET
    clause precedes the WHERE clause. *)
Theorem write_placeholders_match_parameters (table : string)
    (data conditions : QueryParams (V := V)) :
  marks table = 0%nat ->
  marks_of (keys data) = 0%nat ->
  marks_of (keys conditions) = 0%nat ->
  (marks (fst (insert_statement table data)) = length (snd (insert_statement table data))
   /\ snd (insert_statement table data) = map PValue (values data))
  /\ (marks (fst (update_statement table data conditions))
      = length (snd (update_statement table data conditions))
      /\ snd (update_statement table data conditions)
         = (map PValue (values data) ++ map PValue (values conditions))%list)
  /\ (marks (fst (delete_statement table conditions))
      = length (snd (delete_statement table conditions))
      /\ snd (delete_statement table conditions) = map PValue (values conditions)).
Proof.
  intros Ht Hd Hc.
  unfold insert_statement, update_statement, delete_statement. cbn [fst snd].
  repeat split; count_marks;
    unfold keys in *; rewrite ?length_map; lia.
Qed.

End Statements.

Lemma findAll_placeholders_match_parameters_witness :
  findAll_statement "users" (Some user_conditions) None (Some "id DESC") None (Some 20%Z)
  = ("SELECT * FROM users WHERE status = ? AND age = ? ORDER BY id DESC",
     [PValue 1%Z; PValue 18%Z]).
Proof.
  pose proof (findAll_placeholders_match_parameters "users" (Some user_conditions) None
                (Some "id DESC") None (Some 20%Z) eq_refl eq_refl eq_refl eq_refl) as H.
  apply injective_projections; [reflexivity | exact (proj2 H)].
Defined.

Lemma write_placeholders_match_parameters_witness :
  update_statement "users" [("age", 19%Z)] user_conditions
  = ("UPDATE users SET age = ? WHERE status = ? AND age = ?",
     [PValue 19%Z; PValue 1%Z; PValue 18%Z]).
Proof.
  pose proof (write_placeholders_match_parameters "users" [("age", 19%Z)] user_conditions
                eq_refl eq_refl eq_refl) as H.
  apply injective_projections;
    [reflexivity | exact (proj2 (proj1 (proj2 H)))].
Defined.

Section Batch.

Context {V : Type}.

Lemma get_of_includes (data : QueryParams (V := V)) (col : string) :
  includes (keys data) col = true -> exists v, get data col = Some v.
Proof.
  unfold includes, keys. induction data as [| [k v] data IH]; cbn; [discriminate |].
  rewrite String.eqb_sym. destruct (String.eqb k col); [eauto | exact IH].
Qed.

Lemma get_in_values (data : QueryParams (V := V)) (col : string) (v : V) :
  get data col = Some v -> In v (values data).
Proof.
  unfold values. induction data as [| [k w] data IH]; cbn; [discriminate |].
  destruct (String.eqb k col).
  - intros H. inversion H. auto.
  - intros H. auto.
Qed.

(** For columns the object has, the parameters of a row are the values
    it stores under them, column by column. *)
Lemma row_params_stored (columns : list string) (data : QueryParams (V := V)) :
  forallb (fun col => includes (keys data) col) columns = true ->
  exists vs,
    map (get data) columns = map Some vs
    /\ row_params columns data = map PValue vs
    /\ Forall (fun v => In v (values data)) vs.
Proof.
  unfold row_params. induction columns as [| col columns IH]; cbn [forallb map].
  - intros _. exists []. repeat split; constructor.
  - intros H. apply andb_true_iff in H. destruct H as [Hc Hr].
    destruct (IH Hr) as (vs & Hg & Hp & Hin).
    destruct (get_of_includes data col Hc) as [v Hv].
    exists (v :: vs). cbn [map]. rewrite Hv, Hg, Hp.
    repeat split. constructor; [exact (get_in_values data col v Hv) | exact Hin].
Qed.

Lemma marks_of_copies {A : Type} (single : string) (l : list A) :
  marks_of (map (fun _ => single) l) = (length l * marks single)%nat.
Proof.
  unfold marks_of. induction l as [| x l IH]; [reflexivity |].
  cbn [map fold_right length]. rewrite IH. lia.
Qed.

(** The column check looks at the names of an object only. *)
Lemma same_columns_ignores_values (f : V -> V) (columns : list string)
    (data : QueryParams (V := V)) :
  same_columns columns (map (fun kv => (fst kv, f (snd kv))) data)
  = same_columns columns data.
Proof.
  unfold same_columns, keys. rewrite map_map. cbn [fst]. reflexivity.
Qed.

(** [batchInsert]: when every object of the list passes the column
    check against the first, the parameter array holds one parameter
    per object and column, and it is, object by object and column by
    column, the value the object stores under the column: no parameter
    stands for a column an object lacks. The check compares names
    only and passes whatever the values are, so a parameter is
    [undefined] where an object stores [undefined], and only there.
    With a table and columns free of question marks the statement has
    one placeholder per parameter. *)
Theorem batchInsert_parameters_are_complete (undefined_value : V -> bool)
    (table : string) (columns : list string) (dataList : list (QueryParams (V := V))) :
  forallb (same_columns columns) dataList = true ->
  length (snd (batchInsert_statement table columns dataList))
  = (length dataList * length columns)%nat
  /\ (exists rows : list (list V),
        snd (batchInsert_statement table columns dataList) = map PValue (concat rows)
        /\ Forall2 (fun data vs => map (get data) columns = map Some vs) dataList rows)
  /\ ((forall data v, In data dataList -> In v (values data) -> undefined_value v = false) ->
      forallb (fun p => negb (is_undefined undefined_value p))
        (snd (batchInsert_statement table columns dataList)) = true)
  /\ (forall f : V -> V,
        forallb (same_columns columns)
          (map (map (fun kv => (fst kv, f (snd kv)))) dataList) = true)
  /\ (marks table = 0%nat -> marks_of columns = 0%nat ->
      marks (fst (batchInsert_statement table columns dataList))
      = length (snd (batchInsert_statement table columns dataList))).
Proof.
  intros Hall. unfold batchInsert_statement. cbn [fst snd].
  assert (Hrows : exists rows : list (list V),
             flat_map (row_params columns) dataList = map PValue (concat rows)
             /\ Forall2 (fun data vs => map (get data) columns = map Some vs) dataList rows
             /\ Forall2 (fun data vs => Forall (fun v => In v (values data)) vs)
                  dataList rows).
  { induction dataList as [| data rest IH].
    - exists []. repeat split; constructor.
    - cbn [forallb] in Hall. apply andb_true_iff in Hall. destruct Hall as [Hd Hr].
      destruct (IH Hr) as (rows & Hp & Hg & Hin).
      unfold same_columns in Hd. apply andb_true_iff in Hd. destruct Hd as [_ Hd].
      destruct (row_params_stored columns data Hd) as (vs & Hg1 & Hp1 & Hin1).
      exists (vs :: rows). cbn [flat_map concat]. rewrite map_app, Hp, Hp1.
      repeat split; constructor; assumption. }
  destruct Hrows as (rows & Hp & Hg & Hin).
  assert (Hlen : length (flat_map (row_params columns) dataList)
                 = (length dataList * length columns)%nat).
  { clear. induction dataList as [| data rest IH]; [reflexivity |].
    cbn [flat_map length]. rewrite length_app, IH. unfold row_params.
    rewrite length_map. lia. }
  split; [exact Hlen |].
  split; [exists rows; split; assumption |].
  split.
  { intros Hdef. rewrite Hp. clear Hp Hg Hlen Hall.
    induction Hin as [| data vs rest rows Hvs Hrest IH]; [reflexivity |].
    cbn [concat]. rewrite map_app, forallb_app.
    rewrite IH by (intros d v Hd Hv; apply (Hdef d v); [right; exact Hd | exact Hv]).
    rewrite andb_true_r. apply forallb_forall. intros p Hin.
    apply in_map_iff in Hin. destruct Hin as (v & <- & Hv). cbn.
    rewrite Forall_forall in Hvs.
    rewrite (Hdef data v (or_introl eq_refl) (Hvs v Hv)). reflexivity. }
  split.
  { intros f. clear Hp Hg Hin Hlen. induction dataList as [| data rest IH]; [reflexivity |].
    cbn [forallb map] in *. apply andb_true_iff in Hall. destruct Hall as [Hd Hr].
    rewrite same_columns_ignores_values, Hd, (IH Hr). reflexivity. }
  intros Ht Hc. rewrite Hlen.
  rewrite !marks_app, (marks_concat ", " columns eq_refl), Ht, Hc.
  rewrite (marks_concat ", " _ eq_refl), marks_of_copies.
  rewrite !marks_app, (marks_concat ", " _ eq_refl), marks_placeholders.
  cbn [marks Ascii.eqb Bool.eqb]. lia.
Qed.

End Batch.

Lemma batchInsert_parameters_are_complete_witness :
  snd (batchInsert_statement "users" ["id"; "age"] user_rows)
  = [PValue 1%Z; PValue 30%Z; PValue 2%Z; PValue 41%Z]
  /\ length (snd (batchInsert_statement "users" ["id"; "age"] user_rows)) = 4%nat
  /\ forallb (fun p => negb (is_undefined (fun _ => false) p))
       (snd (batchInsert_statement "users" ["id"; "age"] user_rows)) = true.
Proof.
  pose proof (batchInsert_parameters_are_complete (fun _ => false) "users" ["id"; "age"]
                user_rows eq_refl) as H.
  split; [reflexivity |]. split; [exact (proj1 H) |].
  exact (proj1 (proj2 (proj2 H)) (fun _ _ _ _ => eq_refl)).
Defined.

(** An object that stores [undefined] under a column passes the column
    check, and [undefined] is the parameter pushed for it. *)
Example undefined_value_passes_the_column_check :
  forallb (same_columns ["id"; "age"]) sparse_rows = true
  /\ snd (batchInsert_statement "users" ["id"; "age"] sparse_rows)
     = [PValue (Some 1%Z); PValue (Some 30%Z); PValue (Some 2%Z); PValue None]
  /\ map (is_undefined absent) (snd (batchInsert_statement "users" ["id"; "age"] sparse_rows))
     = [false; false; false; true].
Proof. repeat split; reflexivity. Qed.

Section Instance.

Context {V Row : Type}.

Ltac run_db :=
  unfold findOne; unfold findAll, insert, update, delete, batchInsert, transaction;
  unfold query, execute; unfold connect, close;
  unfold and_then, attempt, finally, log, invoke, on_pool, pure, raise,
    set_connectionStatus, assign_pool;
  cbn [connectionStatus pool calls fst snd].

Ltac split_cases :=
  repeat (cbn [connectionStatus pool calls fst snd];
          match goal with
          | |- context [createPool ?d ?c] => destruct (createPool d c) as [[] | ?]
          | |- context [pool_query ?d ?c ?q ?a] => destruct (pool_query d c q a)
          | |- context [pool_execute ?d ?c ?q ?a] => destruct (pool_execute d c q a)
          | |- context [pool_end ?d ?c] => destruct (pool_end d c) as [[] | ?]
          | |- context [getConnection ?d ?c] => destruct (getConnection d c) as [[] | ?]
          | |- context [beginTransaction ?d ?c] =>
              destruct (beginTransaction d c) as [[] | ?]
          | |- context [commit ?d ?c] => destruct (commit d c) as [[] | ?]
          | |- context [rollback ?d ?c] => destruct (rollback d c) as [[] | ?]
          | |- context [release ?d ?c] => destruct (release d c) as [[] | ?]
          end).

Ltac count_calls :=
  unfold created, occurrences;
  rewrite ?filter_app, ?length_app; cbn [filter length is_pool_end is_release
    is_commit is_rollback app]; try lia.

(** [insert], [update] and [delete] refuse a missing or empty object
    before anything else happens: the error is thrown with the
    instance untouched, not connected, nothing logged, no statement
    sent. In particular [delete] and [update] never run without a
    condition. *)
Theorem writes_reject_empty_objects (drv : Driver (V := V) (Row := Row))
    (table : string) (data other : option QueryParams) (s : Db) :
  is_empty data = true ->
  insert drv table data s = (Throw (PlainError "插入数据不能为空"), s)
  /\ update drv table data other s = (Throw (PlainError "更新数据不能为空"), s)
  /\ (is_empty other = false ->
      update drv table other data s = (Throw (PlainError "更新条件不能为空"), s))
  /\ delete drv table data s = (Throw (PlainError "删除条件不能为空"), s).
Proof.
  intros He. unfold insert, update, delete, raise. rewrite He.
  repeat split. intros Ho. rewrite Ho. reflexivity.
Qed.

(** [batchInsert] does not connect. On an instance that was never
    connected the pool is [null]: a list that passes all checks ends in
    the [TypeError] of the call on [null], [createPool] is not called
    and no statement is sent, whereas [insert] of the first object on
    the same instance calls [createPool]. *)
Theorem batchInsert_never_connects (drv : Driver (V := V) (Row := Row))
    (table : string) (first : QueryParams) (rest : list QueryParams) :
  keys first <> [] ->
  forallb (same_columns (keys first)) (first :: rest) = true ->
  fst (batchInsert drv table (Some (first :: rest)) getInstance) = Throw (null_pool drv)
  /\ driver_calls (calls (snd (batchInsert drv table (Some (first :: rest)) getInstance)))
     = []
  /\ connectionStatus (snd (batchInsert drv table (Some (first :: rest)) getInstance))
     = false
  /\ created (calls (snd (insert drv table (Some first) getInstance))) = 1%nat.
Proof.
  intros Hk Hall.
  assert (Hlen : (length (keys first) =? 0)%nat = false).
  { destruct (keys first); [contradiction | reflexivity]. }
  split; [| split; [| split]].
  - unfold batchInsert. rewrite Hlen, Hall. cbn [negb].
    destruct (batchInsert_statement _ _ _) as [sql params]. reflexivity.
  - unfold batchInsert. rewrite Hlen, Hall. cbn [negb].
    destruct (batchInsert_statement _ _ _) as [sql params]. reflexivity.
  - unfold batchInsert. rewrite Hlen, Hall. cbn [negb].
    destruct (batchInsert_statement _ _ _) as [sql params]. reflexivity.
  - unfold insert. cbn [is_empty entries]. rewrite Hlen.
    destruct (insert_statement _ _) as [sql values].
    run_db. cbn [getInstance connectionStatus pool calls app].
    split_cases; cbn [snd calls]; count_calls; reflexivity.
Qed.

Lemma apply_op_connected (drv : Driver (V := V) (Row := Row)) (s : Db) (o : Op) :
  connectionStatus s = true ->
  connectionStatus (apply_op drv s o) = true
  /\ pool (apply_op drv s o) = pool s
  /\ created (calls (apply_op drv s o)) = created (calls s)
  /\ occurrences is_pool_end (calls (apply_op drv s o))
     = occurrences is_pool_end (calls s).
Proof.
  intros Hs.
  destruct o as [| sql ps | sql ps | t c f ob l off | t c f | t d | t d c | t c | t l];
    unfold apply_op.
  - run_db. rewrite Hs. auto.
  - run_db. rewrite Hs. destruct (pool s); split_cases; cbn; repeat split;
      count_calls; auto.
  - run_db. rewrite Hs. destruct (pool s); split_cases; cbn; repeat split;
      count_calls; auto.
  - unfold findAll. destruct (findAll_statement t c f ob l off) as [sql ps].
    run_db. rewrite Hs. destruct (pool s); split_cases; cbn; repeat split;
      count_calls; auto.
  - unfold findOne, findAll.
    destruct (findAll_statement t (Some c) f None (Some 1%Z) None) as [sql ps].
    run_db. rewrite Hs. destruct (pool s); split_cases;
      try match goal with |- context [match ?l with [] => _ | _ :: _ => _ end] =>
            destruct l end;
      cbn; repeat split; count_calls; auto.
  - unfold insert. destruct (is_empty d); [cbn; auto |].
    destruct (insert_statement t (entries d)) as [sql ps].
    run_db. rewrite Hs. destruct (pool s); split_cases; cbn; repeat split;
      count_calls; auto.
  - unfold update. destruct (is_empty d); [cbn; auto |].
    destruct (is_empty c); [cbn; auto |].
    destruct (update_statement t (entries d) (entries c)) as [sql ps].
    run_db. rewrite Hs. destruct (pool s); split_cases; cbn; repeat split;
      count_calls; auto.
  - unfold delete. destruct (is_empty c); [cbn; auto |].
    destruct (delete_statement t (entries c)) as [sql ps].
    run_db. rewrite Hs. destruct (pool s); split_cases; cbn; repeat split;
      count_calls; auto.
  - unfold batchInsert. destruct l as [[| first rest] |]; [cbn; auto | | cbn; auto].
    destruct (length (keys first) =? 0)%nat; [cbn; auto |].
    destruct (negb (forallb (same_columns (keys first)) (first :: rest)));
      [cbn; auto |].
    destruct (batchInsert_statement t (keys first) (first :: rest)) as [sql ps].
    run_db. destruct (pool s); split_cases; cbn; repeat split; count_calls; auto.
Qed.

(** Once connected, an instance keeps its pool: whatever queries,
    finds, inserts, updates, deletes and batch inserts follow, and
    whether they succeed or throw, it stays connected, no second pool
    is created and the pool is not ended. *)
Theorem connected_instance_keeps_its_pool (drv : Driver (V := V) (Row := Row))
    (ops : list Op) (s : Db) :
  connectionStatus s = true ->
  connectionStatus (apply_ops drv ops s) = true
  /\ pool (apply_ops drv ops s) = pool s
  /\ created (calls (apply_ops drv ops s)) = created (calls s)
  /\ occurrences is_pool_end (calls (apply_ops drv ops s))
     = occurrences is_pool_end (calls s).
Proof.
  revert s. induction ops as [| o ops IH]; intros s Hs; [cbn; auto |].
  destruct (apply_op_connected drv s o Hs) as (H1 & H2 & H3 & H4).
  destruct (IH (apply_op drv s o) H1) as (I1 & I2 & I3 & I4).
  cbn [apply_ops fold_left]. fold (apply_ops drv ops (apply_op drv s o)).
  rewrite I2, I3, I4, H2, H3, H4. auto.
Qed.

Lemma query_unreachable (drv : Driver (V := V) (Row := Row)) (s : Db)
    (sql : string) (ps : option (list Param)) :
  (forall cs, createPool drv cs = Normal tt) ->
  (forall cs q a, exists e, pool_query drv cs q a = Throw e) ->
  connectionStatus s = false ->
  connectionStatus (snd (query drv sql ps s)) = false
  /\ created (calls (snd (query drv sql ps s))) = S (created (calls s))
  /\ occurrences is_pool_end (calls (snd (query drv sql ps s)))
     = occurrences is_pool_end (calls s)
  /\ (exists p, pool (snd (query drv sql ps s)) = Some p).
Proof.
  intros Hc Hq Hs. run_db. rewrite Hs, Hc. cbn [connectionStatus pool calls].
  match goal with |- context [pool_query drv ?cs ?q ?a] =>
    destruct (Hq cs q a) as [e He]; rewrite He end.
  cbn. repeat split; count_calls; eauto.
Qed.

(** With a database that cannot be reached, every query creates one
    more pool and ends none: the failed [connect] leaves the pool it
    created assigned and the instance unconnected, the next call
    connects again, and [close] on such an instance returns without
    ending anything. *)
Theorem unreachable_database_piles_up_pools (drv : Driver (V := V) (Row := Row))
    (queries : list (string * option (list Param))) (s : Db) :
  (forall cs, createPool drv cs = Normal tt) ->
  (forall cs q a, exists e, pool_query drv cs q a = Throw e) ->
  connectionStatus s = false ->
  let final := apply_ops drv (map (fun q => OpQuery (fst q) (snd q)) queries) s in
  connectionStatus final = false
  /\ created (calls final) = (created (calls s) + length queries)%nat
  /\ occurrences is_pool_end (calls final) = occurrences is_pool_end (calls s)
  /\ close drv final = (Normal tt, final).
Proof.
  intros Hc Hq. cbv zeta. revert s.
  induction queries as [| [sql ps] queries IH]; intros s Hs.
  - cbn. unfold close. rewrite Hs. repeat split; lia.
  - destruct (query_unreachable drv s sql ps Hc Hq Hs) as (H1 & H2 & H3 & _).
    destruct (IH _ H1) as (I1 & I2 & I3 & I4).
    unfold apply_ops in *. cbn [map fold_left apply_op fst snd length].
    rewrite I2, I3, H2, H3. repeat split; auto; lia.
Qed.

(** A transaction that could be begun releases its connection exactly
    once, after everything else, whatever the callback, the commit and
    the rollback do. It returns the value of the callback only after a
    commit and without a rollback; a callback that throws is answered
    by one rollback and no commit, and the transaction throws. *)
Theorem transaction_releases_once {T : Type} (drv : Driver (V := V) (Row := Row))
    (callback : Run Db T) (s : Db) (p : nat) :
  connectionStatus s = true ->
  pool s = Some p ->
  getConnection drv (calls s) = Normal tt ->
  beginTransaction drv (calls s ++ [GetConnection p]) = Normal tt ->
  let s0 := {| connectionStatus := true; pool := Some p;
               calls := calls s ++ [GetConnection p; BeginTransaction;
                                    Log TransactionBegin] |} in
  exists tail,
    calls (snd (transaction drv callback s)) = (calls (snd (callback s0)) ++ tail)%list
    /\ occurrences is_release tail = 1%nat
    /\ (exists before, tail = (before ++ [Release])%list)
    /\ (forall r, fst (transaction drv callback s) = Normal r ->
          fst (callback s0) = Normal r
          /\ occurrences is_commit tail = 1%nat
          /\ occurrences is_rollback tail = 0%nat)
    /\ (forall e, fst (callback s0) = Throw e ->
          occurrences is_commit tail = 0%nat
          /\ occurrences is_rollback tail = 1%nat
          /\ exists e', fst (transaction drv callback s) = Throw e').
Proof.
  intros Hs Hp Hg Hb. cbv zeta. run_db. rewrite Hs, Hp. cbn [connectionStatus pool calls].
  rewrite Hg. cbn [connectionStatus pool calls]. rewrite Hb.
  cbn [connectionStatus pool calls]. rewrite <- !app_assoc. cbn [app].
  rewrite ?Hs.
  destruct (callback _) as [[r | e] s1]; split_cases; cbn [fst snd calls];
    rewrite <- ?app_assoc; cbn [app];
    eexists; (split; [reflexivity |]); (split; [reflexivity |]);
    (split; [match goal with
             | |- exists b, ?t = _ => exists (removelast t); reflexivity
             end |]);
    (split; [intros r' Hr; try discriminate; inversion Hr; subst; auto
            | intros e' He; try discriminate; eauto]).
Qed.

(** When the transaction cannot be begun, the connection taken from the
    pool is not released: [beginTransaction] stands before the [try],
    so the [finally] does not cover it. The callback does not run. *)
Theorem failed_begin_keeps_connection {T : Type} (drv : Driver (V := V) (Row := Row))
    (callback : Run Db T) (s : Db) (p : nat) (e : JsError) :
  connectionStatus s = true ->
  pool s = Some p ->
  getConnection drv (calls s) = Normal tt ->
  beginTransaction drv (calls s ++ [GetConnection p]) = Throw e ->
  transaction drv callback s
  = (Throw e, {| connectionStatus := true; pool := Some p;
                 calls := calls s ++ [GetConnection p; BeginTransaction] |}).
Proof.
  intros Hs Hp Hg Hb. run_db. rewrite Hs, Hp. cbn [connectionStatus pool calls].
  rewrite Hg. cbn [connectionStatus pool calls]. rewrite Hb.
  cbn [connectionStatus pool calls]. rewrite <- !app_assoc, ?Hs. reflexivity.
Qed.

End Instance.

Lemma writes_reject_empty_objects_witness :
  delete good_driver "users" (Some []) connected_db
  = (Throw (PlainError "删除条件不能为空"), connected_db).
Proof.
  exact (proj2 (proj2 (proj2 (writes_reject_empty_objects good_driver "users" (Some [])
                                None connected_db eq_refl)))).
Defined.

Lemma batchInsert_never_connects_witness :
  fst (batchInsert good_driver "users" (Some user_rows) getInstance)
  = Throw (PlainError "Cannot read properties of null").
Proof.
  refine (proj1 (batchInsert_never_connects good_driver "users"
                   [("id", 1%Z); ("age", 30%Z)] [[("age", 41%Z); ("id", 2%Z)]]
                   _ eq_refl)).
  discriminate.
Defined.

Lemma connected_instance_keeps_its_pool_witness :
  created (calls (apply_ops down_driver
                    [OpQuery "SELECT 1" None; OpDelete "users" (Some user_conditions);
                     OpBatchInsert "users" (Some user_rows)]
                    connected_db)) = 1%nat.
Proof.
  exact (proj1 (proj2 (proj2 (connected_instance_keeps_its_pool down_driver
                                [OpQuery "SELECT 1" None;
                                 OpDelete "users" (Some user_conditions);
                                 OpBatchInsert "users" (Some user_rows)]
                                connected_db eq_refl)))).
Defined.

Lemma unreachable_database_piles_up_pools_witness :
  created (calls (apply_ops down_driver
                    [OpQuery "SELECT 1" None; OpQuery "SELECT 2" None;
                     OpQuery "SELECT 3" None] getInstance)) = 3%nat.
Proof.
  exact (proj1 (proj2 (unreachable_database_piles_up_pools down_driver
                         [("SELECT 1", None); ("SELECT 2", None); ("SELECT 3", None)]
                         getInstance (fun _ => eq_refl)
                         (fun _ _ _ => ex_intro _ (PlainError "connect ECONNREFUSED")
                                         eq_refl)
                         eq_refl))).
Defined.

Lemma transaction_releases_once_witness :
  exists tail,
    calls (snd (transaction (T := unit) good_driver
                  (raise (PlainError "insufficient funds")) connected_db))
    = (calls connected_db
       ++ [GetConnection 0; BeginTransaction; Log TransactionBegin] ++ tail)%list
    /\ occurrences is_release tail = 1%nat.
Proof.
  destruct (transaction_releases_once (T := unit) good_driver
              (raise (PlainError "insufficient funds")) connected_db 0
              eq_refl eq_refl eq_refl eq_refl) as (tail & H1 & H2 & _).
  exists tail. split; [| exact H2].
  rewrite H1. cbn [raise snd calls]. rewrite <- app_assoc. reflexivity.
Defined.

Lemma failed_begin_keeps_connection_witness :
  occurrences is_release
    (calls (snd (transaction no_begin_driver (pure tt) connected_db))) = 0%nat.
Proof.
  rewrite (failed_begin_keeps_connection no_begin_driver (pure tt) connected_db 0
             (PlainError "Lock wait timeout") eq_refl eq_refl eq_refl eq_refl).
  reflexivity.
Defined.

End MysqlFacts.

(** ** The settings of [config/env.ts] *)

Module ConfigFacts.
Import Config.

(** An environment name that the table does not have makes [getEnv]
    return the development configuration as it stands: the failure is
    logged and every variable of the environment, also a valid port or
    prefix, is ignored. The same holds when the environment cannot be
    read at all. *)
Theorem unknown_environment_is_development (sysEnv : SysEnv) :
  envConfigs (currentEnv sysEnv) = Absent ->
  getEnv (Normal sysEnv)
  = (as_resolved development,
     [ReadFailed (PlainError ("未知的环境类型: " ++ currentEnv sysEnv))])
  /\ forall e, getEnv (Throw e) = (as_resolved development, [ReadFailed e]).
Proof.
  intros H. split; [| reflexivity].
  unfold getEnv, attempt, and_then, raise, pure. rewrite H. reflexivity.
Qed.

Lemma unknown_environment_is_development_witness :
  r_PORT (fst (getEnv (Normal staging_variables))) = OfNumber 8000
  /\ r_PREFIX (fst (getEnv (Normal staging_variables))) = Some "/api".
Proof.
  rewrite (proj1 (unknown_environment_is_development staging_variables eq_refl)).
  split; reflexivity.
Defined.

Lemma setenv_other (name value n : string) (sysEnv : SysEnv) :
  n <> name -> setenv name value sysEnv n = sysEnv n.
Proof.
  intros H. unfold setenv. destruct (String.eqb_spec n name); [contradiction | reflexivity].
Qed.

(** [getEnv] reads eleven variables and no other. Setting any other
    variable changes neither the result nor the log; in particular the
    API prefix follows [API_URL], and a variable named [PREFIX] has no
    effect. *)
Theorem other_variables_are_ignored (name value : string) (sysEnv : SysEnv) :
  ~ In name read_names ->
  getEnv (Normal (setenv name value sysEnv)) = getEnv (Normal sysEnv).
Proof.
  intros H.
  assert (Hr : forall n, In n read_names -> setenv name value sysEnv n = sysEnv n).
  { intros n Hn. apply setenv_other. intros ->. exact (H Hn). }
  unfold getEnv, attempt, and_then, raise, pure, currentEnv, merge.
  rewrite !Hr by (cbn; tauto). reflexivity.
Qed.

Lemma other_variables_are_ignored_witness :
  r_PREFIX (fst (getEnv (Normal (setenv "PREFIX" "/v2" no_variables)))) = Some "/api".
Proof.
  rewrite (other_variables_are_ignored "PREFIX" "/v2" no_variables).
  - reflexivity.
  - cbn. intros H. repeat (destruct H as [H | H]; [discriminate |]). exact H.
Defined.

Lemma or_else_default (v : option string) (d : string) :
  d <> "" -> exists x, or_else v (Some d) = Some x /\ x <> "".
Proof.
  intros Hd. unfold or_else. destruct v as [s |]; [| eauto].
  destruct (String.eqb_spec s ""); eauto.
Qed.

Lemma own_configs (name : string) (c : EnvConfig) :
  envConfigs name = Own c -> c = development \/ c = test \/ c = production.
Proof.
  unfold envConfigs.
  destruct (String.eqb name "development"); [intros H; inversion H; auto |].
  destruct (String.eqb name "test"); [intros H; inversion H; auto |].
  destruct (String.eqb name "production"); [intros H; inversion H; auto |].
  destruct (existsb _ _); discriminate.
Qed.

(** In a known environment every textual setting is defined and not
    empty: a variable that is unset or set to the empty string gives
    way to the default of the environment, so an empty variable cannot
    blank the host, the dev-server address, the prefix or a database
    setting. *)
Theorem known_environment_settings_are_not_empty (sysEnv : SysEnv) (c : EnvConfig) :
  envConfigs (currentEnv sysEnv) = Own c ->
  let r := fst (getEnv (Normal sysEnv)) in
  Forall (fun setting => exists x, setting = Some x /\ x <> "")
    [r_HOST r; r_WEB_URL r; r_PREFIX r; r_DB_URL r; r_DB_USER r; r_DB_PASSWORD r;
     r_DB_DATABASE r]
  /\ r_HOST r = or_else (sysEnv "HOST") (Some (HOST c))
  /\ r_WEB_URL r = or_else (sysEnv "WEB_URL") (Some (WEB_URL c))
  /\ r_PREFIX r = or_else (sysEnv "API_URL") (Some (PREFIX c)).
Proof.
  intros H. cbv zeta.
  assert (Hg : fst (getEnv (Normal sysEnv)) = merge sysEnv (Some c)).
  { unfold getEnv, attempt, and_then, raise, pure. rewrite H. reflexivity. }
  rewrite Hg. cbn [merge r_HOST r_WEB_URL r_PREFIX r_DB_URL r_DB_USER r_DB_PASSWORD
                     r_DB_DATABASE option_map].
  split; [| repeat split].
  destruct (own_configs _ _ H) as [-> | [-> | ->]];
    repeat constructor; apply or_else_default; discriminate.
Qed.

Lemma known_environment_settings_are_not_empty_witness :
  r_HOST (fst (getEnv (Normal production_variables))) = Some "0.0.0.0"
  /\ r_WEB_URL (fst (getEnv (Normal production_variables))) = Some "frontend:3000".
Proof.
  pose proof (known_environment_settings_are_not_empty production_variables production
                eq_refl) as H.
  cbv zeta in H. destruct H as (_ & H1 & H2 & _). split; [exact H1 | exact H2].
Defined.

End ConfigFacts.

(** ** The loggers of [utils/logger.ts] *)

Module LoggerFacts.

Lemma lastIndexOf_from_bound (s : string) (c : ascii) (i found : Z) :
  lastIndexOf_from s c i found = found \/ (i <= lastIndexOf_from s c i found)%Z.
Proof.
  revert i found. induction s as [| a rest IH]; intros i found; cbn; [auto |].
  destruct (Ascii.eqb a c).
  - right. destruct (IH (i + 1)%Z i) as [H | H]; lia.
  - destruct (IH (i + 1)%Z found) as [H | H]; [auto | right; lia].
Qed.

Lemma lastIndexOf_from_absent (s : string) (c : ascii) :
  lastIndexOf s c = (-1)%Z ->
  forall i found, (0 <= i)%Z -> lastIndexOf_from s c i found = found.
Proof.
  unfold lastIndexOf.
  assert (H : forall i0 f0, (0 <= i0)%Z -> lastIndexOf_from s c i0 f0 = (-1)%Z ->
              f0 = (-1)%Z /\ forall i found, (0 <= i)%Z ->
                                              lastIndexOf_from s c i found = found).
  { induction s as [| a rest IH]; intros i0 f0 Hi0 H0; cbn in *; [auto |].
    destruct (Ascii.eqb a c).
    - destruct (lastIndexOf_from_bound rest c (i0 + 1) i0) as [H | H]; lia.
    - destruct (IH (i0 + 1)%Z f0 ltac:(lia) H0) as [Hf Hall].
      split; [exact Hf |]. intros i found Hi. apply Hall. lia. }
  intros H0. apply (H 0%Z (-1)%Z); [lia | exact H0].
Qed.

Lemma lastIndexOf_from_app (a b : string) (c : ascii) (i found : Z) :
  lastIndexOf_from (a ++ b) c i found
  = lastIndexOf_from b c (i + Z.of_nat (String.length a)) (lastIndexOf_from a c i found).
Proof.
  revert i found. induction a as [| x a IH]; intros i found.
  - cbn. f_equal. lia.
  - cbn [append lastIndexOf_from String.length]. rewrite IH. f_equal. lia.
Qed.

Lemma substring_prefix (a b : string) :
  String.substring 0 (String.length a) (a ++ b) = a.
Proof.
  induction a as [| x a IH]; cbn.
  - destruct b; reflexivity.
  - rewrite IH. reflexivity.
Qed.

Lemma length_append (a b : string) :
  String.length (a ++ b) = (String.length a + String.length b)%nat.
Proof. induction a as [| x a IH]; cbn; [reflexivity | rewrite IH; reflexivity]. Qed.

(** The directory the logger creates before it writes. For a path
    whose last component holds no slash it is all that stands before
    that component's slash; for a file name without any slash it is
    the empty string. *)
Theorem log_directory_is_parent (dir file : string) :
  lastIndexOf file "/"%char = (-1)%Z ->
  log_directory (dir ++ "/" ++ file) = dir
  /\ log_directory file = "".
Proof.
  intros Hfile. unfold log_directory. split.
  - unfold lastIndexOf. rewrite lastIndexOf_from_app.
    cbn [append lastIndexOf_from Ascii.eqb Bool.eqb].
    rewrite (lastIndexOf_from_absent file "/"%char Hfile) by lia.
    unfold js_substring. rewrite length_append. cbn [String.length append].
    replace (Z.to_nat _) with 0%nat by lia.
    match goal with |- String.substring 0 ?n _ = _ =>
      replace n with (String.length dir) by lia end.
    apply substring_prefix.
  - rewrite Hfile. unfold js_substring.
    replace (Z.to_nat _) with 0%nat by lia.
    match goal with |- String.substring 0 ?n _ = _ => replace n with 0%nat by lia end.
    destruct file; reflexivity.
Qed.

Lemma log_directory_is_parent_witness :
  log_directory "./logs/app.log" = "./logs" /\ log_directory "app.log" = "".
Proof.
  exact (log_directory_is_parent "./logs" "app.log" eq_refl).
Defined.

Lemma writeToFile_returns (fs : FileSystem) (path message : string) (out : list Output) :
  fst (writeToFile fs path message out) = Normal tt
  /\ exists rest,
       snd (writeToFile fs path message out)
       = (out ++ [Mkdir (log_directory path); WriteTextFile path (message ++ newline)]
              ++ rest)%list
       /\ (rest = [] \/ exists m, rest = [Console console_error m]).
Proof.
  unfold writeToFile, attempt, and_then, fs_call, output, pure.
  destruct (mkdir fs out _) as [[] | e];
    destruct (writeTextFile fs _ path _) as [[] | e'];
    cbn; rewrite <- ?app_assoc; cbn [app]; split; try reflexivity;
    eexists; (split; [reflexivity |]); eauto.
Qed.

(** An awaited [writeToFile] is the call started and resumed at once. *)
Lemma writeToFile_awaited (fs : FileSystem) (path message : string) (out : list Output) :
  writeToFile fs path message out
  = writeToFile_resume fs (fst (writeToFile_start fs path message out))
      (snd (writeToFile_start fs path message out)).
Proof.
  unfold writeToFile, writeToFile_resume, writeToFile_start, attempt, and_then, fs_call,
    output, pure.
  cbn [fst snd s_path s_message s_mkdir].
  destruct (mkdir fs out _) as [[] | e]; reflexivity.
Qed.

(** A suspended [writeToFile], whenever it is resumed, appends its line
    to its file and does not throw; a write that fails is reported on
    the console. *)
Lemma writeToFile_resume_returns (fs : FileSystem) (w : Suspended) (out : list Output) :
  fst (writeToFile_resume fs w out) = Normal tt
  /\ exists rest,
       snd (writeToFile_resume fs w out)
       = (out ++ [WriteTextFile (s_path w) (s_message w ++ newline)] ++ rest)%list
       /\ (rest = [] \/ exists m, rest = [Console console_error m]).
Proof.
  unfold writeToFile_resume, attempt, and_then, fs_call, output, pure.
  destruct (s_mkdir w) as [[] | e];
    destruct (writeTextFile fs _ _ _) as [[] | e'];
    cbn; rewrite <- ?app_assoc; cbn [app]; split; try reflexivity;
    eexists; (split; [reflexivity |]); eauto.
Qed.

(** The logger with levels does nothing for a message below its level.
    For any other message [log] writes one line to the console,
    through the method of the message's level, calls [Deno.mkdir], and
    returns: the line is not in the file yet, its write is left to a
    suspended [writeToFile] that nothing awaits. [log] never throws,
    whether or not the data can be turned into text; and the suspended
    call, whenever the runtime resumes it and whatever the file system
    does, appends the same line to the file of the logger and does not
    throw either. *)
Theorem leveled_log_filters_and_never_throws (fs : FileSystem)
    (this : LeveledLogger.Logger) (timestamp : string) (level : LeveledLogger.LogLevel)
    (message : string) (data : option (Completion string))
    (st : LeveledLogger.LoggerState) :
  fst (LeveledLogger.log fs this timestamp level message data st) = Normal tt
  /\ ((LeveledLogger.levelOrder level
       < LeveledLogger.levelOrder (LeveledLogger.logLevel this))%nat ->
      snd (LeveledLogger.log fs this timestamp level message data st) = st)
  /\ ((LeveledLogger.levelOrder (LeveledLogger.logLevel this)
       <= LeveledLogger.levelOrder level)%nat ->
      exists line w,
        LeveledLogger.outputs (snd (LeveledLogger.log fs this timestamp level message data st))
        = (LeveledLogger.outputs st
           ++ [Console (LeveledLogger.consoleMethod level) line;
               Mkdir (log_directory (LeveledLogger.logFile this))])%list
        /\ LeveledLogger.suspended
             (snd (LeveledLogger.log fs this timestamp level message data st))
           = (LeveledLogger.suspended st ++ [w])%list
        /\ forall out,
             fst (writeToFile_resume fs w out) = Normal tt
             /\ exists rest,
                  snd (writeToFile_resume fs w out)
                  = (out ++ [WriteTextFile (LeveledLogger.logFile this) (line ++ newline)]
                         ++ rest)%list
                  /\ (rest = [] \/ exists m, rest = [Console console_error m])).
Proof.
  unfold LeveledLogger.log.
  destruct (Nat.ltb_spec (LeveledLogger.levelOrder level)
              (LeveledLogger.levelOrder (LeveledLogger.logLevel this))) as [Hlt | Hge].
  - split; [reflexivity |]. split; [reflexivity | intros; lia].
  - unfold writeToFile_start. cbn [fst snd LeveledLogger.outputs LeveledLogger.suspended].
    split; [reflexivity |]. split; [intros; lia |].
    intros _. eexists; eexists.
    split; [rewrite <- app_assoc; reflexivity |].
    split; [reflexivity |].
    intros out. exact (writeToFile_resume_returns fs _ out).
Qed.

(** Two lines logged one after the other: both are on the console when
    the second [log] returns, neither is in the file, and the order in
    which they reach the file is the order in which the runtime resumes
    the two suspended calls. *)
Example unawaited_writes_can_swap :
  let st := snd (LeveledLogger.log working_disk LeveledLogger.logger "t2"
                   LeveledLogger.INFO "second" None
                   (snd (LeveledLogger.log working_disk LeveledLogger.logger "t1"
                           LeveledLogger.INFO "first" None
                           {| LeveledLogger.outputs := [];
                              LeveledLogger.suspended := [] |}))) in
  LeveledLogger.outputs st
  = [Console console_info "[t1] [INFO] first"; Mkdir "./logs";
     Console console_info "[t2] [INFO] second"; Mkdir "./logs"]
  /\ skipn 4 (LeveledLogger.outputs
                (LeveledLogger.resume working_disk 0 (LeveledLogger.resume working_disk 0 st)))
     = [WriteTextFile "./logs/app.log" ("[t1] [INFO] first" ++ newline);
        WriteTextFile "./logs/app.log" ("[t2] [INFO] second" ++ newline)]
  /\ skipn 4 (LeveledLogger.outputs
                (LeveledLogger.resume working_disk 0 (LeveledLogger.resume working_disk 1 st)))
     = [WriteTextFile "./logs/app.log" ("[t2] [INFO] second" ++ newline);
        WriteTextFile "./logs/app.log" ("[t1] [INFO] first" ++ newline)].
Proof. repeat split; reflexivity. Qed.

End LoggerFacts.

(** ** The job manager of [utils/cron.ts] *)

Module CronFacts.
Import Cron.

Section Manager.

Context {Task : Type}.

Lemma write_frame (fs : FileSystem) (clock : Clock) (level : Logger.LogLevel)
    (message : string) (meta : option string) (w : World (Task := Task)) :
  fst (write fs clock level message meta w) = Normal tt
  /\ jobs (snd (write fs clock level message meta w)) = jobs w
  /\ scheduled (snd (write fs clock level message meta w)) = scheduled w
  /\ logger_instance (snd (write fs clock level message meta w))
     = snd (manager_logger w)
  /\ written_paths (outputs (snd (write fs clock level message meta w)))
     = (written_paths (outputs w) ++ [Logger.logFilePath (fst (manager_logger w))])%list.
Proof.
  unfold write. destruct (manager_logger w) as [lg inst]. cbn [fst snd].
  unfold Logger.log, and_then.
  assert (Hw : forall out m,
             fst (writeToFile fs (Logger.logFilePath lg) m out) = Normal tt
             /\ written_paths (snd (writeToFile fs (Logger.logFilePath lg) m out))
                = (written_paths out ++ [Logger.logFilePath lg])%list).
  { intros out m.
    destruct (LoggerFacts.writeToFile_returns fs (Logger.logFilePath lg) m out)
      as (Hr & rest & Ho & Hrest).
    split; [exact Hr |]. rewrite Ho. unfold written_paths.
    rewrite !flat_map_app. cbn [flat_map app].
    destruct Hrest as [-> | [x ->]]; cbn; rewrite ?app_nil_r; reflexivity. }
  destruct (Logger.enableConsole lg); unfold output, pure; cbn [fst snd];
    match goal with |- context [writeToFile fs ?p ?m ?o] =>
      destruct (Hw o m) as [H1 H2]; destruct (writeToFile fs p m o) as [c o'] end;
    cbn [fst snd jobs scheduled logger_instance outputs] in *; subst c;
    repeat split; try reflexivity; rewrite H2; unfold written_paths;
    rewrite ?flat_map_app; cbn; rewrite ?app_nil_r; reflexivity.
Qed.

Lemma has_false_not_in (w : World (Task := Task)) (n : string) :
  has w n = false -> ~ In n (map fst (jobs w)).
Proof.
  unfold has. induction (jobs w) as [| [k c] l IH]; cbn; [tauto |].
  destruct (String.eqb_spec k n); [discriminate |].
  intros H [Hk | Hin]; [contradiction | exact (IH H Hin)].
Qed.

Lemma apply_op_well_keyed (fs : FileSystem) (clock : Clock) (w : World (Task := Task))
    (o : Op) :
  well_keyed w -> well_keyed (apply_op fs clock w o).
Proof.
  intros [Hnd Hk]. destruct o as [config | jobName | i outcome st en]; unfold apply_op.
  - unfold addJob. destruct (has w (name config)) eqn:Hh; [split; assumption |].
    unfold and_then. cbn [fst snd].
    match goal with |- context [write fs clock ?l ?m ?meta ?w0] =>
      destruct (write_frame fs clock l m meta w0) as (Hr & Hj & _);
      destruct (write fs clock l m meta w0) as [c w1] end.
    cbn [fst snd jobs] in *. subst c. unfold well_keyed. cbn [snd jobs]. rewrite Hj.
    split.
    + rewrite map_app. apply NoDup_app; [exact Hnd | |].
      * constructor; [intros [] | constructor].
      * intros x Hx [Hy | []]. subst x. exact (has_false_not_in w _ Hh Hx).
    + apply Forall_app. split; [exact Hk | repeat constructor].
  - unfold removeJob. destruct (negb (has w jobName)); [split; assumption |].
    unfold and_then. cbn [fst snd].
    match goal with |- context [write fs clock ?l ?m ?meta ?w0] =>
      destruct (write_frame fs clock l m meta w0) as (Hr & Hj & _);
      destruct (write fs clock l m meta w0) as [c w1] end.
    cbn [fst snd jobs] in *. subst c. unfold well_keyed. cbn [snd jobs]. rewrite Hj.
    split.
    + clear Hk Hj. induction (jobs w) as [| [k c] l IH]; cbn; [constructor |].
      inversion Hnd as [| ? ? Hnotin Hnd']; subst.
      destruct (negb (String.eqb k jobName)); cbn; [| exact (IH Hnd')].
      constructor; [| exact (IH Hnd')].
      intros Hin. apply Hnotin. apply in_map_iff in Hin.
      destruct Hin as (kv & Hkv & Hf). apply filter_In in Hf.
      apply in_map_iff. exists kv. tauto.
    + apply Forall_forall. intros kv Hin. apply filter_In in Hin.
      rewrite Forall_forall in Hk. apply Hk. tauto.
  - destruct (nth_error (scheduled w) i) as [config |]; [| split; assumption].
    unfold run_job, attempt, and_then, writeLog. cbn [fst snd].
    destruct outcome as [[] | e];
      match goal with |- context [write fs clock ?l ?m ?meta ?w0] =>
        destruct (write_frame fs clock l m meta w0) as (Hr & Hj & _);
        destruct (write fs clock l m meta w0) as [c w1] end;
      cbn [fst snd jobs] in *; subst c; cbn [snd]; unfold well_keyed;
      rewrite Hj; split; assumption.
Qed.

(** Whatever jobs are added and removed and whichever callbacks fire,
    the names of the registered jobs stay distinct, and every job is
    registered under its own name: [addJob] refuses a name that is
    taken and leaves the manager as it was. *)
Theorem job_names_stay_distinct (fs : FileSystem) (clock : Clock) (ops : list Op) :
  NoDup (map fst (jobs (apply_ops fs clock ops (loaded (Task := Task)))))
  /\ Forall (fun kv : string * CronJobConfig (Task := Task) => fst kv = name (snd kv))
       (jobs (apply_ops fs clock ops loaded))
  /\ forall (w : World (Task := Task)) (config : CronJobConfig),
       has w (name config) = true ->
       addJob fs clock config w
       = (Throw (PlainError ("Job with name " ++ name config ++ " already exists")), w).
Proof.
  assert (H : forall w, well_keyed w -> well_keyed (apply_ops fs clock ops w)).
  { induction ops as [| o ops IH]; intros w Hw; [exact Hw |].
    cbn. apply IH, apply_op_well_keyed, Hw. }
  destruct (H loaded) as [H1 H2]; [split; constructor |].
  split; [exact H1 |]. split; [exact H2 |].
  intros w config Hh. unfold addJob. rewrite Hh. reflexivity.
Qed.

Lemma apply_op_scheduled (fs : FileSystem) (clock : Clock) (w : World (Task := Task))
    (o : Op) :
  exists more, scheduled (apply_op fs clock w o) = (scheduled w ++ more)%list.
Proof.
  destruct o as [config | jobName | i outcome st en]; unfold apply_op.
  - unfold addJob. destruct (has w (name config));
      [exists []; rewrite app_nil_r; reflexivity |].
    unfold and_then. cbn [fst snd].
    match goal with |- context [write fs clock ?l ?m ?meta ?w0] =>
      destruct (write_frame fs clock l m meta w0) as (Hr & _ & Hsch & _);
      destruct (write fs clock l m meta w0) as [c w1] end.
    cbn [fst snd scheduled] in *. subst c. cbn [snd scheduled]. rewrite Hsch. eauto.
  - unfold removeJob. destruct (negb (has w jobName));
      [exists []; rewrite app_nil_r; reflexivity |].
    unfold and_then. cbn [fst snd].
    match goal with |- context [write fs clock ?l ?m ?meta ?w0] =>
      destruct (write_frame fs clock l m meta w0) as (Hr & _ & Hsch & _);
      destruct (write fs clock l m meta w0) as [c w1] end.
    cbn [fst snd scheduled] in *. subst c. cbn [snd]. rewrite Hsch.
    exists []. rewrite app_nil_r. reflexivity.
  - destruct (nth_error (scheduled w) i) as [config |];
      [| exists []; rewrite app_nil_r; reflexivity].
    unfold run_job, attempt, and_then, writeLog. cbn [fst snd].
    destruct outcome as [[] | e];
      match goal with |- context [write fs clock ?l ?m ?meta ?w0] =>
        destruct (write_frame fs clock l m meta w0) as (Hr & _ & Hsch & _);
        destruct (write fs clock l m meta w0) as [c w1] end;
      cbn [fst snd scheduled] in *; subst c; cbn [snd]; rewrite Hsch;
      exists []; rewrite app_nil_r; reflexivity.
Qed.

Lemma apply_ops_scheduled (fs : FileSystem) (clock : Clock) (ops : list Op)
    (w : World (Task := Task)) :
  exists more, scheduled (apply_ops fs clock ops w) = (scheduled w ++ more)%list.
Proof.
  revert w. induction ops as [| o ops IH]; intros w.
  - exists []. rewrite app_nil_r. reflexivity.
  - destruct (apply_op_scheduled fs clock w o) as [m1 H1].
    destruct (IH (apply_op fs clock w o)) as [m2 H2].
    exists (m1 ++ m2)%list. cbn [apply_ops fold_left]. unfold apply_ops in H2.
    rewrite H2, H1, app_assoc. reflexivity.
Qed.

Lemma filter_out_fresh (l : list (string * CronJobConfig (Task := Task)))
    (n : string) (c : CronJobConfig) :
  ~ In n (map fst l) ->
  filter (fun kv => negb (String.eqb (fst kv) n)) (l ++ [(n, c)]) = l.
Proof.
  induction l as [| [k x] l IH]; cbn; intros H.
  - rewrite String.eqb_refl. reflexivity.
  - destruct (String.eqb_spec k n); [exfalso; apply H; auto |].
    cbn. rewrite IH; [reflexivity | tauto].
Qed.

(** [removeJob] takes a job out of the map and leaves its callback with
    the scheduler: after a job is added and removed again the map is
    as before, yet the job is still scheduled. No operation ever takes
    a callback back, so a name that is reused is scheduled twice. *)
Theorem removed_job_stays_scheduled (fs : FileSystem) (clock : Clock)
    (w : World (Task := Task)) (config : CronJobConfig) :
  has w (name config) = false ->
  jobs (apply_ops fs clock [AddJob config; RemoveJob (name config)] w) = jobs w
  /\ scheduled (apply_ops fs clock [AddJob config; RemoveJob (name config)] w)
     = (scheduled w ++ [config])%list
  /\ forall ops, exists more,
       scheduled (apply_ops fs clock ops w) = (scheduled w ++ more)%list.
Proof.
  intros Hh. split; [| split].
  - cbn [apply_ops fold_left apply_op]. unfold addJob. rewrite Hh.
    unfold and_then at 1 2. cbn [fst snd].
    match goal with |- context [write fs clock ?l ?m ?meta ?w0] =>
      destruct (write_frame fs clock l m meta w0) as (Hr & Hj & _);
      destruct (write fs clock l m meta w0) as [c w1] end.
    cbn [fst snd jobs] in *. subst c. cbn [snd].
    unfold removeJob, has. cbn [jobs]. rewrite Hj.
    rewrite existsb_app. cbn [existsb fst]. rewrite String.eqb_refl, !orb_true_r.
    cbn [negb]. unfold and_then. cbn [fst snd].
    match goal with |- context [write fs clock ?l ?m ?meta ?w0] =>
      destruct (write_frame fs clock l m meta w0) as (Hr' & Hj' & _);
      destruct (write fs clock l m meta w0) as [c' w2] end.
    cbn [fst snd jobs] in *. subst c'. cbn [snd]. rewrite Hj'.
    apply filter_out_fresh, has_false_not_in, Hh.
  - cbn [apply_ops fold_left apply_op]. unfold addJob. rewrite Hh.
    unfold and_then at 1 2. cbn [fst snd].
    match goal with |- context [write fs clock ?l ?m ?meta ?w0] =>
      destruct (write_frame fs clock l m meta w0) as (Hr & Hj & Hsch & _);
      destruct (write fs clock l m meta w0) as [c w1] end.
    cbn [fst snd jobs scheduled] in *. subst c. cbn [snd].
    unfold removeJob, has. cbn [jobs]. rewrite Hj.
    rewrite existsb_app. cbn [existsb fst]. rewrite String.eqb_refl, !orb_true_r.
    cbn [negb]. unfold and_then. cbn [fst snd].
    match goal with |- context [write fs clock ?l ?m ?meta ?w0] =>
      destruct (write_frame fs clock l m meta w0) as (Hr' & _ & Hsch' & _);
      destruct (write fs clock l m meta w0) as [c' w2] end.
    cbn [fst snd scheduled] in *. subst c'. cbn [snd]. rewrite Hsch', Hsch.
    reflexivity.
  - intros ops. apply apply_ops_scheduled.
Qed.

Lemma apply_op_logs_to_app_log (fs : FileSystem) (clock : Clock)
    (w : World (Task := Task)) (o : Op) :
  logs_to_app_log w -> logs_to_app_log (apply_op fs clock w o).
Proof.
  intros [(lg & Hlg & Hpath) Hall].
  assert (Hm : manager_logger w = (lg, Some lg)).
  { unfold manager_logger. rewrite Hlg. reflexivity. }
  assert (Hw : forall level message meta
                      (jobs' : list (string * CronJobConfig (Task := Task)))
                      (sch' : list (CronJobConfig (Task := Task))),
             logs_to_app_log
               (snd (write fs clock level message meta
                       {| logger_instance := logger_instance w; jobs := jobs';
                          scheduled := sch'; outputs := outputs w |}))).
  { intros level message meta jobs' sch'.
    match goal with |- context [write fs clock ?l ?m ?mt ?w0] =>
      destruct (write_frame fs clock l m mt w0) as (_ & _ & _ & Hi & Hp) end.
    assert (Hm0 : forall w0 : World (Task := Task),
               logger_instance w0 = logger_instance w ->
               manager_logger w0 = (lg, Some lg)).
    { intros w0 H0. unfold manager_logger. rewrite H0, Hlg. reflexivity. }
    rewrite (Hm0 {| logger_instance := logger_instance w; jobs := jobs';
                    scheduled := sch'; outputs := outputs w |} eq_refl) in Hi, Hp.
    cbn [fst snd] in Hi, Hp.
    split; [exists lg; split; assumption |].
    rewrite Hp. cbn [outputs]. apply Forall_app. split; [exact Hall |].
    repeat constructor. exact Hpath. }
  assert (Hkeep : forall (w1 w2 : World (Task := Task)),
             logs_to_app_log w1 ->
             logger_instance w2 = logger_instance w1 -> outputs w2 = outputs w1 ->
             logs_to_app_log w2).
  { intros w1 w2 [(l1 & H1 & H2) H3] Hi Ho. split.
    - exists l1. rewrite Hi. auto.
    - rewrite Ho. exact H3. }
  destruct o as [config | jobName | i outcome st en]; unfold apply_op.
  - unfold addJob. destruct (has w (name config));
      [split; [exists lg; auto | exact Hall] |].
    unfold and_then. cbn [fst snd].
    match goal with |- context [write fs clock ?l ?m ?meta ?w0] =>
      pose proof (Hw l m meta (jobs w0) (scheduled w0)) as Hx;
      destruct (write_frame fs clock l m meta w0) as (Hr & _);
      destruct (write fs clock l m meta w0) as [c w1] eqn:Heq end.
    cbn [jobs scheduled logger_instance outputs] in Hx. rewrite Heq in Hx. cbn [fst snd jobs scheduled] in *. subst c. cbn [snd].
    apply (Hkeep w1); [exact Hx | reflexivity | reflexivity].
  - unfold removeJob. destruct (negb (has w jobName));
      [split; [exists lg; auto | exact Hall] |].
    unfold and_then. cbn [fst snd].
    match goal with |- context [write fs clock ?l ?m ?meta ?w0] =>
      pose proof (Hw l m meta (jobs w0) (scheduled w0)) as Hx;
      destruct (write_frame fs clock l m meta w0) as (Hr & _);
      destruct (write fs clock l m meta w0) as [c w1] eqn:Heq end.
    cbn [jobs scheduled logger_instance outputs] in Hx. rewrite Heq in Hx. cbn [fst snd jobs scheduled] in *. subst c. exact Hx.
  - destruct (nth_error (scheduled w) i) as [config |];
      [| split; [exists lg; auto | exact Hall]].
    unfold run_job, attempt, and_then, writeLog. cbn [fst snd].
    destruct outcome as [[] | e];
      match goal with |- context [write fs clock ?l ?m ?meta w] =>
        pose proof (Hw l m meta (jobs w) (scheduled w)) as Hx;
        destruct (write_frame fs clock l m meta w) as (Hr & _);
        replace {| logger_instance := logger_instance w; jobs := jobs w;
                   scheduled := scheduled w; outputs := outputs w |}
          with w in Hx by (destruct w; reflexivity);
        destruct (write fs clock l m meta w) as [c w1] eqn:Heq end;
      cbn [jobs scheduled logger_instance outputs] in Hx; try rewrite Heq in Hx; cbn [fst snd] in *; subst c; exact Hx.
Qed.

(** The manager asks for a logger of [./logs/cron.log], but the shared
    logger exists by then, created with the default path when
    [logger.ts] was loaded, and [getInstance] returns it as it is:
    every line the manager and its jobs write goes to
    [./logs/app.log]. *)
Theorem cron_lines_go_to_app_log (fs : FileSystem) (clock : Clock) (ops : list Op) :
  Forall (fun path => path = "./logs/app.log")
    (written_paths (outputs (apply_ops fs clock ops (loaded (Task := Task)))))
  /\ ~ In "./logs/cron.log"
       (written_paths (outputs (apply_ops fs clock ops (loaded (Task := Task))))).
Proof.
  assert (H : forall w : World (Task := Task),
             logs_to_app_log w -> logs_to_app_log (apply_ops fs clock ops w)).
  { induction ops as [| o ops IH]; intros w Hw; [exact Hw |].
    cbn. apply IH, apply_op_logs_to_app_log, Hw. }
  destruct (H loaded) as [_ Hall].
  { split; [eexists; split; reflexivity | constructor]. }
  split; [exact Hall |].
  intros Hin. rewrite Forall_forall in Hall. specialize (Hall _ Hin). discriminate.
Qed.

End Manager.

Lemma removed_job_stays_scheduled_witness :
  jobs (apply_ops working_disk fixed_clock [AddJob del_log; RemoveJob "del_log"] loaded)
    = []
  /\ scheduled (apply_ops working_disk fixed_clock
                  [AddJob del_log; RemoveJob "del_log"] loaded) = [del_log].
Proof.
  pose proof (removed_job_stays_scheduled working_disk fixed_clock loaded del_log
                eq_refl) as H.
  split; [exact (proj1 H) | exact (proj1 (proj2 H))].
Defined.

End CronFacts.

(** ** The routes of [read/index.ts] *)

Module RoutesFacts.
Import Routes.

(** The two file readers never throw and always answer with an
    envelope. Without a [url], or with an empty one, no file is
    touched and the envelope is the error envelope of the missing
    parameter; a file that cannot be read or parsed gives the error
    envelope of the failed read; only a file read and parsed gives a
    success envelope, and it carries the parsed data. *)
Theorem file_routes_answer_with_envelopes {Data Sheet : Type}
    (rd : Readers (Data := Data) (Sheet := Sheet)) (url : option string)
    (s : RouteState Data (list FileCall)) :
  let csv := readFileCSV rd url s in
  let excel := readFileExcel rd url s in
  fst csv = Normal tt /\ fst excel = Normal tt
  /\ (missing url = true ->
      snd csv = {| body := Some (Failure (errorBody "缺少url参数")); world := world s |}
      /\ snd excel = snd csv)
  /\ (missing url = false ->
      world (snd csv) = (world s ++ [ReadTextFile (given url)])%list
      /\ world (snd excel) = (world s ++ [XlsxReadFile (given url)])%list
      /\ body (snd csv)
         = Some (match readTextFile rd (given url) with
                 | Normal file => match parse rd file with
                                  | Normal data => Success (successBody data)
                                  | Throw _ => Failure (errorBody "读取文件失败")
                                  end
                 | Throw _ => Failure (errorBody "读取文件失败")
                 end)
      /\ body (snd excel)
         = Some (match xlsx_readFile rd (given url) with
                 | Normal file => match sheet_to_json rd (first_sheet file) with
                                  | Normal data => Success (successBody data)
                                  | Throw _ => Failure (errorBody "读取文件失败")
                                  end
                 | Throw _ => Failure (errorBody "读取文件失败")
                 end)).
Proof.
  cbv zeta. unfold readFileCSV, readFileExcel.
  destruct (missing url).
  - repeat split; intros; try discriminate; reflexivity.
  - unfold attempt, and_then, within, file_call, set_body. cbn [world body fst snd].
    destruct (readTextFile rd (given url)) as [file | e];
      [destruct (parse rd file) |];
      (destruct (xlsx_readFile rd (given url)) as [book | e'];
       [destruct (sheet_to_json rd (first_sheet book)) |]);
      cbn; repeat split; intros; try discriminate; reflexivity.
Qed.

(** [getFileData] checks that a file name is given and then does not
    use it: whatever the name, the same single record is inserted into
    [set_data_info] with the same statement. The insert goes to the
    pool as it is, without connecting: with no pool it throws the
    [TypeError]. A failed insert is not caught: the route throws and
    leaves the body as it was. *)
Theorem getFileData_ignores_the_file_name {Row : Type}
    (drv : Mysql.Driver (V := string) (Row := Row)) (fileName other : option string)
    (s : RouteState Mysql.ExecResult (Mysql.Db (V := string))) :
  missing fileName = false ->
  missing other = false ->
  getFileData drv other s = getFileData drv fileName s
  /\ (forall p, Mysql.pool (world s) = Some p ->
       In (Mysql.PoolExecute p
             "INSERT INTO set_data_info (file_name, data_table) VALUES (?, ?)"
             (Some [Mysql.PValue "test1"; Mysql.PValue "test"]))
          (Mysql.calls (world (snd (getFileData drv fileName s)))))
  /\ (Mysql.pool (world s) = None ->
       fst (getFileData drv fileName s) = Throw (Mysql.null_pool drv))
  /\ (forall e, fst (getFileData drv fileName s) = Throw e ->
       body (snd (getFileData drv fileName s)) = body s)
  /\ getFileData drv None s
     = (Normal tt, {| body := Some (Failure (errorBody "缺少文件名称参数"));
                      world := world s |}).
Proof.
  intros Hf Ho. unfold getFileData. rewrite Hf, Ho. cbn [missing].
  split; [reflexivity |].
  unfold and_then, within, set_body, Mysql.batchInsert, file_record.
  cbn [Mysql.keys map fst length Nat.eqb forallb Mysql.same_columns Mysql.includes
       existsb String.eqb Ascii.eqb Bool.eqb andb orb negb
       Mysql.batchInsert_statement].
  unfold and_then, attempt, Mysql.log, Mysql.invoke, Mysql.on_pool, pure, raise.
  cbn [Mysql.connectionStatus Mysql.pool Mysql.calls fst snd world body].
  destruct (Mysql.pool (world s)) as [p |].
  - destruct (Mysql.pool_execute drv _ _ _) as [r | e];
      cbn [fst snd world body Mysql.calls];
      (split; [intros p' Hp; inversion Hp; subst p';
               apply in_or_app; left; apply in_or_app; right; left; reflexivity |]);
      (split; [discriminate |]);
      (split; [intros e' He; try discriminate; reflexivity | reflexivity]).
  - cbn [fst snd world body Mysql.calls].
    split; [discriminate |]. split; [reflexivity |].
    split; [reflexivity | reflexivity].
Qed.

Lemma getFileData_ignores_the_file_name_witness :
  getFileData string_driver (Some "report.csv") pending_route
  = getFileData string_driver (Some "other.csv") pending_route.
Proof.
  exact (proj1 (getFileData_ignores_the_file_name string_driver (Some "other.csv")
                  (Some "report.csv") pending_route eq_refl eq_refl)).
Defined.

End RoutesFacts.
